(** * helm-deploy: a shallow embedding of [action.py]

    The action reads a fixed set of inputs from the environment, builds the
    argument list of one [helm] sub-command, decodes the cluster credential
    into a file, runs [helm] as a child process and exits with its status.

    Layout of this development:
    - [Py]      the Python built-ins the script relies on (strings as
                sequences of code points, truthiness, [str.splitlines],
                [str.join], [base64.b64decode]);
    - [Eff]     the world the script acts on and a small monad for its
                effects (printing, files, child processes, [sys.exit],
                exceptions);
    - [Action]  the functions of [action.py], one definition per function;
    - [Shlex]   [shlex.split] as [run_helm] uses it;
    - then the lemmas: the argument lists, the values files, the
      credential, the command line, and whole runs. *)

From Stdlib Require Import List NArith ZArith Lia Bool String Ascii.
Import ListNotations.

Set Implicit Arguments.

(* ================================================================== *)
(** ** Python built-ins *)

Module Py.

(** A Python [str] is a sequence of Unicode code points; [bytes] is a
    sequence of values below 256. *)
Definition char := N.
Definition str := list char.
Definition bytes := list N.

(** String literals of the script. *)
Definition lit (s : string) : str :=
  map N_of_ascii (list_ascii_of_string s).

Definition str_eqb (a b : str) : bool :=
  if list_eq_dec N.eq_dec a b then true else false.

(** [x == "..."] where [x] may be [None]. *)
Definition eq_str (x : option str) (s : str) : bool :=
  match x with
  | Some v => str_eqb v s
  | None => false
  end.

(** Truth value of an optional string: [None] and the empty string are
    false. *)
Definition truthy (x : option str) : bool :=
  match x with
  | Some (_ :: _) => true
  | _ => false
  end.

(** [bool(s)] for a string, as used by [filter(None, ...)]. *)
Definition nonempty (s : str) : bool :=
  match s with
  | [] => false
  | _ :: _ => true
  end.

(** [x or d] for an optional string [x] and a string [d]. *)
Definition or_str (x : option str) (d : str) : str :=
  match x with
  | Some (c :: s) => c :: s
  | _ => d
  end.

(** What an f-string renders for a value that may be [None]. *)
Definition format (x : option str) : str :=
  match x with
  | Some s => s
  | None => lit "None"
  end.

(** The line boundaries of [str.splitlines]:
    LF, VT, FF, CR, FS, GS, RS, NEL, LS and PS. *)
Definition is_linebreak (c : char) : bool :=
  match c with
  | 10 | 11 | 12 | 13 | 28 | 29 | 30 | 133 | 8232 | 8233 => true
  | _ => false
  end%N.

Definition CR : char := 13%N.
Definition LF : char := 10%N.

(** [s.splitlines()]: scan to the next line boundary, emit the characters
    seen since the previous one, read CR LF as one boundary.  [line] holds
    the characters of the current line, last one first.  A final line
    without a terminator is emitted; an empty tail is not. *)
Fixpoint splitlines_from (line : str) (s : str) : list str :=
  match s with
  | [] =>
      match line with
      | [] => []
      | _ :: _ => [rev line]
      end
  | c :: rest =>
      if is_linebreak c then
        rev line ::
          match rest with
          | d :: rest' =>
              if (c =? CR)%N && (d =? LF)%N
              then splitlines_from [] rest'
              else splitlines_from [] rest
          | [] => splitlines_from [] rest
          end
      else splitlines_from (c :: line) rest
  end.

Definition splitlines (s : str) : list str := splitlines_from [] s.

(** What [splitlines_from] emits after a line boundary [c]. *)
Definition after_break (c : char) (rest : str) : list str :=
  match rest with
  | d :: rest' =>
      if (c =? CR)%N && (d =? LF)%N
      then splitlines_from [] rest'
      else splitlines_from [] rest
  | [] => splitlines_from [] rest
  end.

(** [sep.join(items)]: every item has to be a string, else [TypeError]
    (rendered here as [None]). *)
Fixpoint join_strs (sep : str) (items : list str) : str :=
  match items with
  | [] => []
  | [x] => x
  | x :: rest => x ++ sep ++ join_strs sep rest
  end.

Fixpoint all_strs (items : list (option str)) : option (list str) :=
  match items with
  | [] => Some []
  | None :: _ => None
  | Some x :: rest =>
      match all_strs rest with
      | Some xs => Some (x :: xs)
      | None => None
      end
  end.

Definition join (sep : str) (items : list (option str)) : option str :=
  match all_strs items with
  | Some xs => Some (join_strs sep xs)
  | None => None
  end.

(** [s.upper()] and [s.replace(old, new)] for single characters.  [upper]
    is [str.upper] on ASCII strings only, which the thirteen input names
    of [load_inputs] are; it is used for nothing else. *)
Definition upper (s : str) : str :=
  map (fun c => if (97 <=? c)%N && (c <=? 122)%N then (c - 32)%N else c) s.

Definition replace (old new : char) (s : str) : str :=
  map (fun c => if (c =? old)%N then new else c) s.

(** [pathlib]: [str(dir / name)], for a directory given without a slash
    at its end. *)
Definition path_join (dir name : str) : str := dir ++ lit "/" ++ name.

(** Whether UTF-8 can encode a text: every code point but the surrogates
    (which [os.environ] makes of the bytes of a variable that are not
    UTF-8). *)
Definition utf8_encodes (s : str) : bool :=
  forallb (fun c => negb ((55296 <=? c)%N && (c <=? 57343)%N)) s.

(** *** base64 *)

(** [s.encode('ascii')]: fails on any code point above 127. *)
Fixpoint encode_ascii (s : str) : option bytes :=
  match s with
  | [] => Some []
  | c :: rest =>
      if (c <? 128)%N then
        match encode_ascii rest with
        | Some bs => Some (c :: bs)
        | None => None
        end
      else None
  end.

(** The decoding table of [binascii]: the value of a character of the
    base64 alphabet, and 255 for every other byte. *)
Definition table_a2b_base64 (c : N) : N :=
  (if (65 <=? c) && (c <=? 90) then c - 65
   else if (97 <=? c) && (c <=? 122) then c - 97 + 26
   else if (48 <=? c) && (c <=? 57) then c - 48 + 52
   else if c =? 43 then 62
   else if c =? 47 then 63
   else 255)%N.

Definition BASE64_PAD : N := 61%N.

(** The loop of [binascii.a2b_base64] in its default (non strict) mode.
    [quad_pos] is the position in the current group of four characters,
    [leftchar] the bits left over from the previous character, [pads] the
    number of pad characters seen in a row and [out] the bytes produced so
    far.  A byte that is neither a pad nor in the alphabet is skipped; a
    complete pad sequence stops the decoding; input that ends inside a group
    is an error ([None]). *)
Fixpoint a2b_loop (data : bytes) (quad_pos leftchar pads : N) (out : bytes)
  : option bytes :=
  match data with
  | [] => if (quad_pos =? 0)%N then Some out else None
  | this_ch :: rest =>
      if (this_ch =? BASE64_PAD)%N then
        if (2 <=? quad_pos)%N then
          if (4 <=? quad_pos + (pads + 1))%N then Some out
          else a2b_loop rest quad_pos leftchar (pads + 1)%N out
        else a2b_loop rest quad_pos leftchar pads out
      else
        let v := table_a2b_base64 this_ch in
        if (64 <=? v)%N then a2b_loop rest quad_pos leftchar pads out
        else
          match quad_pos with
          | 0%N => a2b_loop rest 1%N v 0%N out
          | 1%N =>
              a2b_loop rest 2%N (N.land v 15) 0%N
                (out ++ [N.land (N.lor (N.shiftl leftchar 2) (N.shiftr v 4)) 255])
          | 2%N =>
              a2b_loop rest 3%N (N.land v 3) 0%N
                (out ++ [N.land (N.lor (N.shiftl leftchar 4) (N.shiftr v 2)) 255])
          | _ =>
              a2b_loop rest 0%N 0%N 0%N
                (out ++ [N.land (N.lor (N.shiftl leftchar 6) v) 255])
          end
  end.

Definition a2b_base64 (data : bytes) : option bytes :=
  a2b_loop data 0%N 0%N 0%N [].

(** The exceptions that can occur in the script. *)
Inductive Exn : Type :=
| TypeError
| ValueError
| BinasciiError
| OSError
| FileNotFoundError
| YAMLError
| UnicodeEncodeError.

(** [base64.b64decode(s)] for a [str] argument: the string is first encoded
    as ASCII ([ValueError] when it is not ASCII), then decoded leniently
    ([binascii.Error] on a bad length or padding). *)
Definition b64decode (s : str) : Exn + bytes :=
  match encode_ascii s with
  | None => inl ValueError
  | Some data =>
      match a2b_base64 data with
      | None => inl BinasciiError
      | Some decoded => inr decoded
      end
  end.

End Py.

(* ================================================================== *)
(** ** The world and the effects of the script *)

Module Eff.
Import Py.

(** What the script can observe and change.  [helm_calls] and [spawned] are
    traces kept for the statements below: the arguments of every call of
    [run_helm], and the argument vector of every child process started.
    Signals and their handlers are left out. *)
Record World : Type := mkWorld {
  stdout : list str;
  fs : list (str * list N);
  tmpdirs : list str;
  helm_calls : list (str * list (option str));
  spawned : list (list str)
}.

Definition empty_world : World := mkWorld [] [] [] [] [].

(** How a computation ends: with a value, by [sys.exit(code)], or with an
    exception that nothing caught. *)
Inductive Result (A : Type) : Type :=
| Ok (a : A)
| SysExit (code : Z)
| Raised (e : Exn).

Arguments Ok {A} a.
Arguments SysExit {A} code.
Arguments Raised {A} e.

Definition M (A : Type) : Type := World -> Result A * World.

Definition ret {A} (a : A) : M A := fun w => (Ok a, w).

Definition bind {A B} (m : M A) (k : A -> M B) : M B :=
  fun w =>
    match m w with
    | (Ok a, w') => k a w'
    | (SysExit c, w') => (SysExit c, w')
    | (Raised e, w') => (Raised e, w')
    end.

Definition sys_exit {A} (code : Z) : M A := fun w => (SysExit code, w).
Definition raise {A} (e : Exn) : M A := fun w => (Raised e, w).

Definition print (line : str) : M unit :=
  fun w => (Ok tt, mkWorld (stdout w ++ [line]) (fs w) (tmpdirs w)
                           (helm_calls w) (spawned w)).

(** Files, as an association list from path to content. *)
Fixpoint fs_remove (path : str) (files : list (str * list N))
  : list (str * list N) :=
  match files with
  | [] => []
  | (p, c) :: rest =>
      if str_eqb p path then fs_remove path rest
      else (p, c) :: fs_remove path rest
  end.

Fixpoint fs_exists (path : str) (files : list (str * list N)) : bool :=
  match files with
  | [] => false
  | (p, _) :: rest => str_eqb p path || fs_exists path rest
  end.

Fixpoint fs_read (path : str) (files : list (str * list N))
  : option (list N) :=
  match files with
  | [] => None
  | (p, c) :: rest => if str_eqb p path then Some c else fs_read path rest
  end.

(** [path.open("w").write(content)]: create or truncate. *)
Definition write_file (path : str) (content : list N) : M unit :=
  fun w => (Ok tt, mkWorld (stdout w) ((path, content) :: fs_remove path (fs w))
                           (tmpdirs w) (helm_calls w) (spawned w)).

(** [path.unlink()]: the file has to exist. *)
Definition unlink (path : str) : M unit :=
  fun w =>
    if fs_exists path (fs w)
    then (Ok tt, mkWorld (stdout w) (fs_remove path (fs w)) (tmpdirs w)
                         (helm_calls w) (spawned w))
    else (Raised FileNotFoundError, w).

(** [try: m except Exception: handler].  [sys.exit] raises [SystemExit],
    which is not an [Exception] and passes through. *)
Definition try_except {A} (m : M A) (handler : M A) : M A :=
  fun w =>
    match m w with
    | (Raised _, w') => handler w'
    | r => r
    end.

(** A pure computation that may raise. *)
Definition lift {A} (r : Exn + A) : M A :=
  match r with
  | inl e => raise e
  | inr a => ret a
  end.

Definition note_tmpdir (path : str) : M unit :=
  fun w => (Ok tt, mkWorld (stdout w) (fs w) (tmpdirs w ++ [path])
                           (helm_calls w) (spawned w)).

Definition note_call (cmd : str) (params : list (option str)) : M unit :=
  fun w => (Ok tt, mkWorld (stdout w) (fs w) (tmpdirs w)
                           (helm_calls w ++ [(cmd, params)]) (spawned w)).

Definition note_spawn (argv : list str) : M unit :=
  fun w => (Ok tt, mkWorld (stdout w) (fs w) (tmpdirs w)
                           (helm_calls w) (spawned w ++ [argv])).

(** Keyword arguments, and any other list of bindings, looked up by name. *)
Fixpoint kwargs_get (kwargs : list (str * str)) (name : str) : option str :=
  match kwargs with
  | [] => None
  | (k, v) :: rest => if str_eqb k name then Some v else kwargs_get rest name
  end.

(** What the script takes from its host and does not define itself: the
    environment, the name [tempfile.mkdtemp] picks, [shlex.split] ([None]
    when it raises [ValueError]), the child process ([None] when it cannot
    be started, else its return code; it is given the argument vector and
    the whole environment it is started with), whether a text parses as
    YAML, and whether the encoding of text files on the host can encode a
    text. *)
Record Host : Type := mkHost {
  environ : str -> option str;
  mkdtemp : str;
  shlex_split : str -> option (list str);
  child : list str -> (str -> option str) -> option Z;
  yaml_parses : str -> bool;
  file_encodes : str -> bool
}.

End Eff.

Declare Scope eff_scope.
Delimit Scope eff_scope with eff.
Notation "x <- m ;; k" := (Eff.bind m (fun x => k))
  (at level 100, m at next level, right associativity) : eff_scope.
Notation "m ;; k" := (Eff.bind m (fun _ => k))
  (at level 100, right associativity) : eff_scope.

(* ================================================================== *)
(** ** The script *)

Module Action.
Import Py Eff.
Local Open Scope eff_scope.

(** The inputs, one field per key of the dictionary [load_inputs] builds
    ([specs["chart-version"]] is [chart_version specs], and so on). *)
Record Specs : Type := mkSpecs {
  atomic : option str;
  chart_version : option str;
  chart : option str;
  dry_run : option str;
  helm_version : option str;
  mode : option str;
  namespace : option str;
  release : option str;
  repo_name : option str;
  repo : option str;
  timeout : option str;
  values_files : option str;
  values : option str
}.

(** [yaml.safe_load_all(stream)] returns [load_all(stream, SafeLoader)],
    and [load_all] is a generator function (its body is a loop around
    [yield loader.get_data()]): a call only builds the generator.  The
    loader is made, the stream is read, and a malformed document raises,
    when the generator is iterated, which is what [next_doc] stands for. *)
Inductive Generator : Type :=
| mkGenerator (next_doc : unit -> Exn + unit).

Section WithHost.

Variable os : Host.

Definition env_name (key : str) : str :=
  lit "GHINPUT_" ++ replace 45%N 95%N (upper key).

Definition load_inputs : Specs :=
  let rv key := environ os (env_name key) in
  {| atomic := rv (lit "atomic");
     chart_version := rv (lit "chart-version");
     chart := rv (lit "chart");
     dry_run := rv (lit "dry-run");
     helm_version := rv (lit "helm-version");
     mode := rv (lit "mode");
     namespace := rv (lit "namespace");
     release := rv (lit "release");
     repo_name := rv (lit "repo-name");
     repo := rv (lit "repo");
     timeout := rv (lit "timeout");
     values_files := rv (lit "values-files");
     values := rv (lit "values") |}.

(** [ymlload(stream)], line 42: the generator is built and handed back;
    nothing iterates it. *)
Definition ymlload (stream : str) : M Generator :=
  ret (mkGenerator
         (fun _ => if yaml_parses os stream then inr tt else inl YAMLError)).

(** [with path.open("w") as f: f.write(text)]: opening makes the file, or
    empties it; writing encodes the text first and raises
    [UnicodeEncodeError] when the encoding cannot take it, and the file is
    closed as it is.  The line separator of the host is taken to be LF, so
    that nothing is translated on the way. *)
Definition write_text (path : str) (text : str) : M unit :=
  write_file path [] ;;
  if file_encodes os text then write_file path text
  else raise UnicodeEncodeError.

Definition load_values (wrkdir : str) (specs : Specs) : M (option str) :=
  match values specs with
  | Some (c :: text) =>
      let dst := path_join wrkdir (lit "values.yaml") in
      try_except
        (_ <- ymlload (c :: text) ;; ret tt)
        (print (lit "Unable to parse `values`.") ;; sys_exit 1%Z) ;;
      write_text (path_join wrkdir (lit "values.yaml")) (c :: text) ;;
      ret (Some dst)
  | _ => ret None
  end.

Definition load_values_files (specs : Specs) : list str :=
  match values_files specs with
  | Some (c :: text) => filter nonempty (splitlines (c :: text))
  | _ => []
  end.

Definition load_chart (specs : Specs) : option str :=
  if negb (truthy (repo specs))
     || (truthy (repo specs) && truthy (repo_name specs))
  then chart specs
  else Some (lit "charts/" ++ format (chart specs)).

(** [{**dict(os.environ), **env}]: the environment of the script with the
    keyword arguments of [run_helm] on top. *)
Definition child_environ (env : list (str * str)) : str -> option str :=
  fun name =>
    match kwargs_get env name with
    | Some value => Some value
    | None => environ os name
    end.

(** [run_helm(cmd, params, **env)]: join the command line, split it again
    with [shlex], start the child and wait for it. *)
Definition run_helm (cmd : str) (params : option (list (option str)))
    (env : list (str * str)) : M Z :=
  let params :=
    match params with
    | Some (p :: ps) => p :: ps
    | _ => []
    end in
  note_call cmd params ;;
  helm_cmd <- match join (lit " ") (Some (lit "helm") :: Some cmd :: params) with
              | Some line => ret line
              | None => raise TypeError
              end ;;
  argv <- match shlex_split os helm_cmd with
          | Some argv => ret argv
          | None => raise ValueError
          end ;;
  match child os argv (child_environ env) with
  | Some returncode => note_spawn argv ;; ret returncode
  | None => raise OSError
  end.

Definition load_repo (inner : str -> Specs -> M unit)
  : str -> Specs -> M unit :=
  fun wrkdir specs =>
    (if truthy (repo specs) then
       _ <- run_helm (lit "repo add --force-update")
              (Some [Some (or_str (repo_name specs) (lit "charts")); repo specs])
              [] ;;
       _ <- run_helm (lit "repo update") None [] ;;
       ret tt
     else ret tt) ;;
    inner wrkdir specs.

(** [with load_kubeconfig(wrkdir) as kubeconfig: block].  The generator
    behind the context manager has no [try]/[finally] around its [yield]:
    a block that ends with an exception or with [sys.exit] leaves the
    generator at the [yield], and [dst.unlink()] runs only after a block
    that ends normally. *)
Definition load_kubeconfig {A} (wrkdir : str) (block : str -> M A) : M A :=
  let encoded :=
    match environ os (lit "KUBECFGB64") with
    | Some e => e
    | None => []
    end in
  decoded <- try_except
               (lift (b64decode encoded))
               (print (lit "Bad kubeconfig") ;; sys_exit 1%Z) ;;
  let dst := path_join wrkdir (lit ".kube_config.yml") in
  write_file dst decoded ;;
  r <- block dst ;;
  unlink dst ;;
  ret r.

Definition wrap_helm (wrkdir cmd : str) (params : option (list (option str)))
    (exit : bool) : M unit :=
  returncode <- load_kubeconfig wrkdir
                  (fun kubeconfig =>
                     run_helm cmd params [(lit "KUBECONFIG", kubeconfig)]) ;;
  if exit then sys_exit returncode else ret tt.

(** [for values_file in values_files: params.extend(["-f", values_file])] *)
Definition extend_values_files (params : list (option str))
    (values_files : list str) : list (option str) :=
  fold_left
    (fun params values_file => params ++ [Some (lit "-f"); Some values_file])
    values_files params.

(** The argument list [helm_install] builds (lines 127 to 144). *)
Definition helm_install_params (specs : Specs) (chart : option str)
    (values_target : option str) (values_files : list str)
  : list (option str) :=
  let params :=
    [release specs; chart; Some (lit "--namespace"); namespace specs] in
  let params :=
    if eq_str (atomic specs) (lit "true")
    then params ++ [Some (lit "--atomic")] else params in
  let params :=
    if eq_str (dry_run specs) (lit "true")
    then params ++ [Some (lit "--dry-run")] else params in
  let params := extend_values_files params values_files in
  let params :=
    if truthy values_target
    then params ++ [Some (lit "-f"); values_target] else params in
  let params :=
    if truthy (chart_version specs)
    then params ++ [Some (lit "--version"); chart_version specs] else params in
  let params :=
    if truthy (timeout specs)
    then params ++ [Some (lit "--timeout"); timeout specs] else params in
  params.

Definition helm_install : str -> Specs -> M unit :=
  load_repo (fun wrkdir specs =>
    let chart := load_chart specs in
    values_target <- load_values wrkdir specs ;;
    let values_files := load_values_files specs in
    wrap_helm wrkdir (lit "install")
      (Some (helm_install_params specs chart values_target values_files))
      true).

(** The argument list [helm_upgrade] builds (lines 153 to 171). *)
Definition helm_upgrade_params (specs : Specs) (chart : option str)
    (values_target : option str) (values_files : list str)
  : list (option str) :=
  let params :=
    [release specs; chart; Some (lit "--install");
     Some (lit "--namespace"); namespace specs] in
  let params :=
    if eq_str (atomic specs) (lit "true")
    then params ++ [Some (lit "--atomic")] else params in
  let params :=
    if eq_str (dry_run specs) (lit "true")
    then params ++ [Some (lit "--dry-run")] else params in
  let params := extend_values_files params values_files in
  let params :=
    if truthy values_target
    then params ++ [Some (lit "-f"); values_target] else params in
  let params :=
    if truthy (chart_version specs)
    then params ++ [Some (lit "--version"); chart_version specs] else params in
  let params :=
    if truthy (timeout specs)
    then params ++ [Some (lit "--timeout"); timeout specs] else params in
  params.

Definition helm_upgrade : str -> Specs -> M unit :=
  load_repo (fun wrkdir specs =>
    let chart := load_chart specs in
    values_target <- load_values wrkdir specs ;;
    let values_files := load_values_files specs in
    wrap_helm wrkdir (lit "upgrade")
      (Some (helm_upgrade_params specs chart values_target values_files))
      true).

(** The argument list [helm_template] builds (lines 180 to 191). *)
Definition helm_template_params (specs : Specs) (chart : option str)
    (values_target : option str) (values_files : list str)
  : list (option str) :=
  let params :=
    [release specs; chart; Some (lit "--namespace"); namespace specs] in
  let params := extend_values_files params values_files in
  let params :=
    if truthy values_target
    then params ++ [Some (lit "-f"); values_target] else params in
  let params :=
    if truthy (chart_version specs)
    then params ++ [Some (lit "--version"); chart_version specs] else params in
  params.

Definition helm_template : str -> Specs -> M unit :=
  load_repo (fun wrkdir specs =>
    let chart := load_chart specs in
    values_target <- load_values wrkdir specs ;;
    let values_files := load_values_files specs in
    returncode <- run_helm (lit "template")
                    (Some (helm_template_params specs chart values_target
                             values_files))
                    [] ;;
    sys_exit returncode).

(** The argument list [helm_uninstall] builds (lines 200 to 204). *)
Definition helm_uninstall_params (specs : Specs) : list (option str) :=
  [release specs; Some (lit "--namespace"); namespace specs].

Definition helm_uninstall (wrkdir : str) (specs : Specs) : M unit :=
  wrap_helm wrkdir (lit "uninstall") (Some (helm_uninstall_params specs)) true.

(** [d.get(key)] on a dictionary with string keys; the key may be [None]. *)
Fixpoint dict_get {V} (d : list (str * V)) (key : option str) : option V :=
  match d with
  | [] => None
  | (k, v) :: rest => if eq_str key k then Some v else dict_get rest key
  end.

Definition run : M unit :=
  let specs := load_inputs in
  let cmd :=
    dict_get
      [(lit "install", helm_install);
       (lit "upgrade", helm_upgrade);
       (lit "uninstall", helm_uninstall);
       (lit "template", helm_template)]
      (mode specs) in
  match cmd with
  | None => print (lit "Unknown `mode` specified.") ;; sys_exit 1%Z
  | Some cmd =>
      let wrkdir := mkdtemp os in
      note_tmpdir wrkdir ;;
      cmd wrkdir specs
  end.

End WithHost.

End Action.

(* ================================================================== *)
(** ** Vocabulary of the statements *)

Module Args.
Import Py Eff Action.

(** The four operations [run] dispatches to. *)
Inductive Operation : Type := Install | Upgrade | Uninstall | Template.

(** What [load_values] returns ([values_target] in the operations). *)
Definition values_target (wrkdir : str) (specs : Specs) : option str :=
  if truthy (values specs)
  then Some (path_join wrkdir (lit "values.yaml"))
  else None.

(** The argument list an operation assembles for a configuration, in the
    working directory [wrkdir]. *)
Definition install_args (wrkdir : str) (specs : Specs) : list (option str) :=
  helm_install_params specs (load_chart specs) (values_target wrkdir specs)
    (load_values_files specs).

Definition upgrade_args (wrkdir : str) (specs : Specs) : list (option str) :=
  helm_upgrade_params specs (load_chart specs) (values_target wrkdir specs)
    (load_values_files specs).

Definition template_args (wrkdir : str) (specs : Specs) : list (option str) :=
  helm_template_params specs (load_chart specs) (values_target wrkdir specs)
    (load_values_files specs).

Definition uninstall_args (specs : Specs) : list (option str) :=
  helm_uninstall_params specs.

Definition args (op : Operation) (wrkdir : str) (specs : Specs)
  : list (option str) :=
  match op with
  | Install => install_args wrkdir specs
  | Upgrade => upgrade_args wrkdir specs
  | Uninstall => uninstall_args specs
  | Template => template_args wrkdir specs
  end.

(** The pieces an argument list is made of. *)
Definition atomic_flag (specs : Specs) : list (option str) :=
  if eq_str (atomic specs) (lit "true") then [Some (lit "--atomic")] else [].

Definition dry_run_flag (specs : Specs) : list (option str) :=
  if eq_str (dry_run specs) (lit "true") then [Some (lit "--dry-run")] else [].

Definition timeout_pair (specs : Specs) : list (option str) :=
  if truthy (timeout specs)
  then [Some (lit "--timeout"); timeout specs] else [].

Definition version_pair (specs : Specs) : list (option str) :=
  if truthy (chart_version specs)
  then [Some (lit "--version"); chart_version specs] else [].

Definition values_files_pairs (files : list str) : list (option str) :=
  flat_map (fun f => [Some (lit "-f"); Some f]) files.

Definition values_pair (target : option str) : list (option str) :=
  if truthy target then [Some (lit "-f"); target] else [].

(** An entry of an argument list that is a string and not the empty one. *)
Definition present (x : option str) : Prop := truthy x = true.

(** A configuration with the [atomic] and [dry-run] options cleared. *)
Definition without_atomic_dry_run (specs : Specs) : Specs :=
  {| atomic := None;
     chart_version := chart_version specs;
     chart := chart specs;
     dry_run := None;
     helm_version := helm_version specs;
     mode := mode specs;
     namespace := namespace specs;
     release := release specs;
     repo_name := repo_name specs;
     repo := repo specs;
     timeout := timeout specs;
     values_files := values_files specs;
     values := values specs |}.

(** A configuration in which only the listed options are set. *)
Definition config (mode release chart namespace timeout : option str)
  : Specs :=
  {| atomic := None;
     chart_version := None;
     chart := chart;
     dry_run := None;
     helm_version := None;
     mode := mode;
     namespace := namespace;
     release := release;
     repo_name := None;
     repo := None;
     timeout := timeout;
     values_files := None;
     values := None |}.

(** The credential as [load_kubeconfig] reads it. *)
Definition credential (os : Host) : str :=
  match environ os (lit "KUBECFGB64") with
  | Some e => e
  | None => []
  end.

Definition kube_config (wrkdir : str) : str :=
  path_join wrkdir (lit ".kube_config.yml").

Definition with_stdout (w : World) (lines : list str) : World :=
  mkWorld lines (fs w) (tmpdirs w) (helm_calls w) (spawned w).

(** What [load_kubeconfig] does once the credential is decoded. *)
Definition scoped (A : Type) (wrkdir : str) (decoded : bytes)
    (block : str -> M A) : M A :=
  bind (write_file (kube_config wrkdir) decoded)
    (fun _ => bind (block (kube_config wrkdir))
       (fun r => bind (unlink (kube_config wrkdir)) (fun _ => ret r))).

End Args.

(* ================================================================== *)
(** ** The lines of a text *)

Module LinesSpec.
Import Py.

(** The characters and sequences that end a line: LF, CR (and CR LF as
    one), VT, FF, FS, GS, RS, NEL, LS and PS. *)
Definition BOUNDARIES : list char :=
  [10; 13; 11; 12; 28; 29; 30; 133; 8232; 8233]%N.

Definition boundary (c : char) : bool := existsb (N.eqb c) BOUNDARIES.

Definition at_boundary (s : str) : Prop :=
  match s with
  | [] => True
  | c :: _ => boundary c = true
  end.

(** [Lines s ls]: [ls] is the sequence of the lines of [s] that are not
    empty, in the order they have in [s], where a line ends at one of the
    [BOUNDARIES].  This is written from the words of the statement and
    not from the code: [s] is read as boundaries, then a line, then what
    follows that line, where a line is a run of characters that are no
    boundaries, is not empty, and stops at a boundary or at the end of
    [s]. *)
Inductive Lines : str -> list str -> Prop :=
| Lines_end (seps : str) :
    forallb boundary seps = true ->
    Lines seps []
| Lines_line (seps line rest : str) (ls : list str) :
    forallb boundary seps = true ->
    line <> [] ->
    forallb (fun c => negb (boundary c)) line = true ->
    at_boundary rest ->
    Lines rest ls ->
    Lines (seps ++ line ++ rest) (line :: ls).

(** The reading of section 4.3 of the specification, word for word: the
    input is a newline-delimited string of paths; the output is the paths
    that are not empty, in order.  [line] holds the characters since the
    last newline, last one first. *)
Fixpoint newline_delimited_from (line : str) (s : str) : list str :=
  match s with
  | [] => [rev line]
  | c :: rest =>
      if (c =? LF)%N then rev line :: newline_delimited_from [] rest
      else newline_delimited_from (c :: line) rest
  end.

Definition newline_delimited (s : str) : list str :=
  filter nonempty (newline_delimited_from [] s).

End LinesSpec.

(* ================================================================== *)
(** ** Base64 as the decoder expects it *)

Module Base64Spec.
Import Py.

(** The character of a 6-bit value in the base64 alphabet. *)
Definition table_b2a_base64 (v : N) : N :=
  (if v <? 26 then 65 + v
   else if v <? 52 then 97 + (v - 26)
   else if v <? 62 then 48 + (v - 52)
   else if v =? 62 then 43
   else 47)%N.

(** The four 6-bit values of a group of three bytes. *)
Definition sextet0 (x : N) : N := N.shiftr x 2.
Definition sextet1 (x y : N) : N :=
  N.lor (N.shiftl (N.land x 3) 4) (N.shiftr y 4).
Definition sextet2 (y z : N) : N :=
  N.lor (N.shiftl (N.land y 15) 2) (N.shiftr z 6).
Definition sextet3 (z : N) : N := N.land z 63.

(** The base64 text of a sequence of bytes: four characters for three
    bytes, the last group filled up with pad characters. *)
Fixpoint b64encode (data : bytes) : bytes :=
  match data with
  | [] => []
  | [x] =>
      [table_b2a_base64 (sextet0 x); table_b2a_base64 (sextet1 x 0);
       BASE64_PAD; BASE64_PAD]
  | [x; y] =>
      [table_b2a_base64 (sextet0 x); table_b2a_base64 (sextet1 x y);
       table_b2a_base64 (sextet2 y 0); BASE64_PAD]
  | x :: y :: z :: rest =>
      table_b2a_base64 (sextet0 x) :: table_b2a_base64 (sextet1 x y)
        :: table_b2a_base64 (sextet2 y z) :: table_b2a_base64 (sextet3 z)
        :: b64encode rest
  end.

(** The characters the decoder reacts to: the alphabet and the pad. *)
Definition b64_symbol (c : N) : bool :=
  ((c =? BASE64_PAD) || (table_a2b_base64 c <? 64))%N.

Definition is_ascii (s : str) : bool := forallb (fun c => (c <? 128)%N) s.

Definition is_bytes (data : bytes) : bool :=
  forallb (fun x => (x <? 256)%N) data.

(** The numbers below [n], for checks by enumeration. *)
Fixpoint below (n : nat) : list N :=
  match n with
  | O => []
  | S k => N.of_nat k :: below k
  end.

Definition all_below (n : nat) (p : N -> bool) : bool := forallb p (below n).

End Base64Spec.

(* ================================================================== *)
(** ** Sample hosts *)

Module Samples.
Import Py Eff Action.

(** An environment given as a list of bindings. *)
Fixpoint getenv (bindings : list (str * str)) (name : str) : option str :=
  match bindings with
  | [] => None
  | (k, v) :: rest => if str_eqb k name then Some v else getenv rest name
  end.

(** A host on which [shlex.split] splits at single spaces, every child
    process returns 0, no text parses as YAML and text files are UTF-8. *)
Fixpoint split_spaces (word : str) (s : str) : list str :=
  match s with
  | [] => [rev word]
  | c :: rest =>
      if (c =? 32)%N then rev word :: split_spaces [] rest
      else split_spaces (c :: word) rest
  end.

Definition host_with (bindings : list (str * str)) : Host :=
  {| environ := getenv bindings;
     mkdtemp := lit "/tmp/tmpw";
     shlex_split := fun line => Some (split_spaces [] line);
     child := fun _ _ => Some 0%Z;
     yaml_parses := fun _ => false;
     file_encodes := utf8_encodes |}.

(** Uninstall with a namespace and no release. *)
Definition uninstall_without_release : Host :=
  host_with [(lit "GHINPUT_MODE", lit "uninstall");
             (lit "GHINPUT_NAMESPACE", lit "ns1")].

(** The same with a release, and a credential that is base64 but for one
    character that is not ASCII. *)
Definition uninstall_e_acute : Host :=
  host_with [(lit "GHINPUT_MODE", lit "uninstall");
             (lit "GHINPUT_RELEASE", lit "r1");
             (lit "GHINPUT_NAMESPACE", lit "ns1");
             (lit "KUBECFGB64", lit "YWJj" ++ [233%N])].

(** ... and one that is base64 but for a dash. *)
Definition uninstall_dash : Host :=
  host_with [(lit "GHINPUT_MODE", lit "uninstall");
             (lit "GHINPUT_RELEASE", lit "r1");
             (lit "GHINPUT_NAMESPACE", lit "ns1");
             (lit "KUBECFGB64", lit "YW-Jj")].

(** Uninstall of release [r1] in namespace [ns1]. *)
Definition uninstall_r1_ns1 : Host :=
  host_with [(lit "GHINPUT_MODE", lit "uninstall");
             (lit "GHINPUT_RELEASE", lit "r1");
             (lit "GHINPUT_NAMESPACE", lit "ns1")].

(** A mode that is none of the four. *)
Definition mode_delete : Host :=
  host_with [(lit "GHINPUT_MODE", lit "delete");
             (lit "GHINPUT_RELEASE", lit "r1")].

(** Inline values that are not YAML: a flow sequence that is never closed. *)
Definition values_unclosed : Specs :=
  mkSpecs None None (Some (lit "c1")) None None (Some (lit "install"))
    (Some (lit "ns1")) (Some (lit "r1")) None None None None
    (Some (lit "a: [b")).

End Samples.

(* ================================================================== *)
(** ** The command line as [shlex] reads it *)

Module Shlex.
Import Py.

(** The character classes of a [shlex.shlex] in POSIX mode. *)
Definition is_whitespace (c : char) : bool :=
  ((c =? 32) || (c =? 9) || (c =? 13) || (c =? 10))%N.

Definition is_quote (c : char) : bool := ((c =? 39) || (c =? 34))%N.

Definition ESCAPE : char := 92%N.
Definition DOUBLE_QUOTE : char := 34%N.

(** The states of [read_token]: between tokens, inside a word, inside a
    quotation (with its quote character), and behind a backslash (with the
    state to go back to). *)
Inductive State : Type :=
| Space
| Word
| Quote (q : char)
| Escape (escapedstate : State).

(** [shlex.split(s)]: the tokens [read_token] gives until the end of the
    input, with [whitespace_split] on and no comment characters, so that
    every character that is no whitespace, quote or backslash is part of a
    word.  [token] is the token being read.  [None] stands for the
    [ValueError] of an open quotation or a backslash at the end. *)
Fixpoint read (s : str) (state : State) (token : str) : option (list str) :=
  match s with
  | [] =>
      match state with
      | Space => Some []
      | Word => Some [token]
      | Quote _ => None
      | Escape _ => None
      end
  | nextchar :: rest =>
      match state with
      | Space =>
          if is_whitespace nextchar then read rest Space token
          else if (nextchar =? ESCAPE)%N then read rest (Escape Word) token
          else if is_quote nextchar then read rest (Quote nextchar) token
          else read rest Word [nextchar]
      | Word =>
          if is_whitespace nextchar then
            match read rest Space [] with
            | Some tokens => Some (token :: tokens)
            | None => None
            end
          else if is_quote nextchar then read rest (Quote nextchar) token
          else if (nextchar =? ESCAPE)%N then read rest (Escape Word) token
          else read rest Word (token ++ [nextchar])
      | Quote q =>
          if (nextchar =? q)%N then read rest Word token
          else if (nextchar =? ESCAPE)%N && (q =? DOUBLE_QUOTE)%N
               then read rest (Escape (Quote q)) token
          else read rest (Quote q) (token ++ [nextchar])
      | Escape escapedstate =>
          let token :=
            match escapedstate with
            | Quote q =>
                if negb (nextchar =? ESCAPE)%N && negb (nextchar =? q)%N
                then token ++ [ESCAPE] else token
            | _ => token
            end in
          read rest escapedstate (token ++ [nextchar])
      end
  end.

Definition split (s : str) : option (list str) := read s Space [].

(** A character that [shlex] takes as it is, and a string of such. *)
Definition plain (c : char) : bool :=
  negb (is_whitespace c) && negb (is_quote c) && negb (c =? ESCAPE)%N.

Definition plain_word (w : str) : bool := forallb plain w.

End Shlex.

(* ================================================================== *)
(** ** More vocabulary and sample hosts *)

Module Vocabulary.
Import Py Eff Action Args Samples.

(** The sub-command of an operation. *)
Definition op_name (op : Operation) : str :=
  match op with
  | Install => lit "install"
  | Upgrade => lit "upgrade"
  | Uninstall => lit "uninstall"
  | Template => lit "template"
  end.

Definition values_yaml (wrkdir : str) : str :=
  path_join wrkdir (lit "values.yaml").

Definition with_fs (w : World) (files : list (str * list N)) : World :=
  mkWorld (stdout w) files (tmpdirs w) (helm_calls w) (spawned w).

(** The world after a call of helm that started the child [argv]. *)
Definition with_call (w : World) (cmd : str) (params : list (option str))
    (argv : list str) : World :=
  mkWorld (stdout w) (fs w) (tmpdirs w)
    (helm_calls w ++ [(cmd, params)]) (spawned w ++ [argv]).

(** A host that differs in the credential variable only.  The children
    are the same programs, and [run_helm] starts them in the changed
    environment. *)
Definition with_credential (os : Host) (cred : option str) : Host :=
  {| environ := fun name =>
                  if str_eqb name (lit "KUBECFGB64") then cred
                  else environ os name;
     mkdtemp := mkdtemp os;
     shlex_split := shlex_split os;
     child := child os;
     yaml_parses := yaml_parses os;
     file_encodes := file_encodes os |}.

(** A host that differs in one variable of the environment only; its
    children, started by [run_helm], get that environment. *)
Definition with_variable (os : Host) (variable : str) (value : option str)
  : Host :=
  {| environ := fun name =>
                  if str_eqb name variable then value else environ os name;
     mkdtemp := mkdtemp os;
     shlex_split := shlex_split os;
     child := child os;
     yaml_parses := yaml_parses os;
     file_encodes := file_encodes os |}.

(** A computation that prints nothing, or prints just [diagnostic] and ends
    with exit code 1. *)
Definition prints_only (A : Type) (diagnostic : str) (m : M A) : Prop :=
  forall w,
    stdout (snd (m w)) = stdout w \/
    (fst (m w) = SysExit 1%Z /\ stdout (snd (m w)) = stdout w ++ [diagnostic]).

(** Whether [load_values] can write the inline values: there are none, or
    the encoding of text files can take them. *)
Definition values_writable (os : Host) (specs : Specs) : bool :=
  match values specs with
  | Some (c :: text) => file_encodes os (c :: text)
  | _ => true
  end.

(** A host on which the children do not look at [variable]: they return
    the same in any two environments that agree on all other names. *)
Definition child_ignores (os : Host) (variable : str) : Prop :=
  forall argv (env1 env2 : str -> option str),
    (forall name, name <> variable -> env1 name = env2 name) ->
    child os argv env1 = child os argv env2.

(** A host with the [shlex.split] of the library, on which every child
    returns 3 and text files are UTF-8. *)
Definition host_shlex (bindings : list (str * str)) : Host :=
  {| environ := getenv bindings;
     mkdtemp := lit "/tmp/tmpw";
     shlex_split := Shlex.split;
     child := fun _ _ => Some 3%Z;
     yaml_parses := fun _ => true;
     file_encodes := utf8_encodes |}.

(** An installation from a repository without a name, with inline values
    and an empty credential. *)
Definition install_from_repo : Host :=
  host_shlex [(lit "GHINPUT_MODE", lit "install");
              (lit "GHINPUT_RELEASE", lit "r1");
              (lit "GHINPUT_CHART", lit "c1");
              (lit "GHINPUT_NAMESPACE", lit "ns1");
              (lit "GHINPUT_REPO", lit "https://example.org/charts");
              (lit "GHINPUT_VALUES", lit "a: 1")].

(** An installation of a local chart, atomic, with a credential that is the
    base64 text of [abc]. *)
Definition install_atomic : Host :=
  host_shlex [(lit "GHINPUT_MODE", lit "install");
              (lit "GHINPUT_RELEASE", lit "r1");
              (lit "GHINPUT_CHART", lit "c1");
              (lit "GHINPUT_NAMESPACE", lit "ns1");
              (lit "GHINPUT_ATOMIC", lit "true");
              (lit "KUBECFGB64", lit "YWJj")].

(** The same with a credential that does not decode. *)
Definition install_bad_credential : Host :=
  host_shlex [(lit "GHINPUT_MODE", lit "install");
              (lit "GHINPUT_RELEASE", lit "r1");
              (lit "GHINPUT_CHART", lit "c1");
              (lit "GHINPUT_NAMESPACE", lit "ns1");
              (lit "GHINPUT_VALUES", lit "a: 1");
              (lit "KUBECFGB64", lit "YQ=")].

(** An installation from a repository with a credential that does not
    decode. *)
Definition install_from_repo_bad_credential : Host :=
  host_shlex [(lit "GHINPUT_MODE", lit "install");
              (lit "GHINPUT_RELEASE", lit "r1");
              (lit "GHINPUT_CHART", lit "c1");
              (lit "GHINPUT_NAMESPACE", lit "ns1");
              (lit "GHINPUT_REPO", lit "https://example.org/charts");
              (lit "KUBECFGB64", lit "YQ=")].

(** An installation with inline values that hold the code point U+DCFF,
    which is what [os.environ] makes of the byte FF. *)
Definition install_values_not_utf8 : Host :=
  host_shlex [(lit "GHINPUT_MODE", lit "install");
              (lit "GHINPUT_RELEASE", lit "r1");
              (lit "GHINPUT_CHART", lit "c1");
              (lit "GHINPUT_NAMESPACE", lit "ns1");
              (lit "GHINPUT_VALUES", lit "a: " ++ [56575%N])].

(** The same rendering on a host whose children look at their environment:
    they return 0 with a [KUBECFGB64] in it and 4 without. *)
Definition template_child_reads_credential : Host :=
  {| environ := getenv [(lit "GHINPUT_MODE", lit "template");
                        (lit "GHINPUT_RELEASE", lit "r1");
                        (lit "GHINPUT_CHART", lit "c1");
                        (lit "GHINPUT_NAMESPACE", lit "ns1");
                        (lit "KUBECFGB64", lit "YQ=")];
     mkdtemp := lit "/tmp/tmpw";
     shlex_split := Shlex.split;
     child := fun _ env => match env (lit "KUBECFGB64") with
                           | Some _ => Some 0%Z
                           | None => Some 4%Z
                           end;
     yaml_parses := fun _ => true;
     file_encodes := utf8_encodes |}.

(** A rendering with a credential that does not decode. *)
Definition template_bad_credential : Host :=
  host_shlex [(lit "GHINPUT_MODE", lit "template");
              (lit "GHINPUT_RELEASE", lit "r1");
              (lit "GHINPUT_CHART", lit "c1");
              (lit "GHINPUT_NAMESPACE", lit "ns1");
              (lit "KUBECFGB64", lit "YQ=")].

End Vocabulary.

(* ================================================================== *)
(** ** Strings and truth values *)

Module PyFacts.
Import Py.

Lemma str_eqb_eq (a b : str) : str_eqb a b = true <-> a = b.
Proof.
  unfold str_eqb. destruct (list_eq_dec N.eq_dec a b); split; congruence.
Qed.

Lemma str_eqb_refl (a : str) : str_eqb a a = true.
Proof. now apply str_eqb_eq. Qed.

Lemma eq_str_true (x : option str) (s : str) :
  eq_str x s = true <-> x = Some s.
Proof.
  destruct x as [v|]; simpl.
  - rewrite str_eqb_eq. split; congruence.
  - split; discriminate.
Qed.

Lemma truthy_true (x : option str) :
  truthy x = true <-> exists c s, x = Some (c :: s).
Proof.
  destruct x as [[|c s]|]; simpl; split; try discriminate.
  - intros (c & s & H). discriminate.
  - intros _. now exists c, s.
  - reflexivity.
  - intros (c & s & H). discriminate.
Qed.

End PyFacts.

(* ================================================================== *)
(** ** The chart reference (section 4.5) *)

Module ChartReference.
Import Py Action PyFacts.

Lemma prefixed_differs (p c : str) : p <> [] -> c <> p ++ c.
Proof.
  unfold str, char in *. intros Hp H. apply (f_equal (@List.length N)) in H.
  rewrite length_app in H. destruct p; [congruence | cbn [List.length] in H; lia].
Qed.

(** C4.  [load_chart] returns the chart as it is when no repository is
    configured, and when a repository is configured together with a
    repository name; it returns the chart behind the prefix [charts/] when
    a repository is configured without a name, and in no other case. *)
Theorem load_chart_resolves (specs : Specs) :
  (truthy (repo specs) = false -> load_chart specs = chart specs) /\
  (truthy (repo specs) = true -> truthy (repo_name specs) = true ->
   load_chart specs = chart specs) /\
  (truthy (repo specs) = true -> truthy (repo_name specs) = false ->
   load_chart specs = Some (lit "charts/" ++ format (chart specs))) /\
  (load_chart specs = Some (lit "charts/" ++ format (chart specs)) <->
   truthy (repo specs) = true /\ truthy (repo_name specs) = false).
Proof.
  assert (Hne : forall c : option str,
             c <> Some (lit "charts/" ++ format c)).
  { intros [c|] H; [| discriminate].
    injection H as Hc. revert Hc.
    apply (@prefixed_differs (lit "charts/") c). discriminate. }
  unfold load_chart.
  destruct (truthy (repo specs)), (truthy (repo_name specs)); simpl.
  all: split; [congruence |].
  all: split; [congruence |].
  all: split; [congruence |].
  all: split; [| intros [? ?]; congruence].
  all: intros H; try (exfalso; exact (Hne _ H)).
  all: split; reflexivity.
Qed.

(** The same at a configuration: repository set, no name, chart [X]. *)
Lemma load_chart_resolves_witness :
  let specs := mkSpecs None None (Some (lit "X")) None None None None None
                 None (Some (lit "https://example.org/charts")) None None None
  in load_chart specs = Some (lit "charts/X").
Proof.
  intros specs.
  destruct (load_chart_resolves specs) as (_ & _ & H & _).
  apply H; reflexivity.
Defined.

End ChartReference.

(* ================================================================== *)
(** ** The argument lists (section 4.8) *)

Module ArgumentLists.
Import Py Action Args PyFacts.

Lemma extend_values_files_app (files : list str) :
  forall params,
    extend_values_files params files = params ++ values_files_pairs files.
Proof.
  unfold extend_values_files.
  induction files as [|f files IH]; intros params; simpl.
  - now rewrite app_nil_r.
  - rewrite IH, <- app_assoc. reflexivity.
Qed.

(** Each list is a fixed head followed by the pieces of the options. *)
Lemma helm_install_params_pieces specs chart target files :
  helm_install_params specs chart target files =
  [release specs; chart; Some (lit "--namespace"); namespace specs]
    ++ atomic_flag specs ++ dry_run_flag specs
    ++ values_files_pairs files ++ values_pair target
    ++ version_pair specs ++ timeout_pair specs.
Proof.
  unfold helm_install_params, atomic_flag, dry_run_flag, values_pair,
    version_pair, timeout_pair.
  rewrite extend_values_files_app.
  destruct (eq_str (atomic specs) (lit "true")),
    (eq_str (dry_run specs) (lit "true")), (truthy target),
    (truthy (chart_version specs)), (truthy (timeout specs));
    repeat (rewrite <- ?app_assoc; simpl); rewrite ?app_nil_r; reflexivity.
Qed.

Lemma helm_upgrade_params_pieces specs chart target files :
  helm_upgrade_params specs chart target files =
  [release specs; chart; Some (lit "--install");
   Some (lit "--namespace"); namespace specs]
    ++ atomic_flag specs ++ dry_run_flag specs
    ++ values_files_pairs files ++ values_pair target
    ++ version_pair specs ++ timeout_pair specs.
Proof.
  unfold helm_upgrade_params, atomic_flag, dry_run_flag, values_pair,
    version_pair, timeout_pair.
  rewrite extend_values_files_app.
  destruct (eq_str (atomic specs) (lit "true")),
    (eq_str (dry_run specs) (lit "true")), (truthy target),
    (truthy (chart_version specs)), (truthy (timeout specs));
    repeat (rewrite <- ?app_assoc; simpl); rewrite ?app_nil_r; reflexivity.
Qed.

Lemma helm_template_params_pieces specs chart target files :
  helm_template_params specs chart target files =
  [release specs; chart; Some (lit "--namespace"); namespace specs]
    ++ values_files_pairs files ++ values_pair target ++ version_pair specs.
Proof.
  unfold helm_template_params, values_pair, version_pair.
  rewrite extend_values_files_app.
  destruct (truthy target), (truthy (chart_version specs));
    repeat (rewrite <- ?app_assoc; simpl); rewrite ?app_nil_r; reflexivity.
Qed.

(** C6.  The list of [helm_upgrade] is the list of [helm_install] for the
    same configuration with [--install] put in right after the chart
    reference, in front of [--namespace]; nothing else differs. *)
Theorem upgrade_is_install_with_flag (wrkdir : str) (specs : Specs) :
  exists tail,
    install_args wrkdir specs =
      [release specs; load_chart specs]
        ++ Some (lit "--namespace") :: tail /\
    upgrade_args wrkdir specs =
      [release specs; load_chart specs]
        ++ [Some (lit "--install")]
        ++ Some (lit "--namespace") :: tail.
Proof.
  unfold install_args, upgrade_args.
  rewrite helm_install_params_pieces, helm_upgrade_params_pieces.
  eexists. split; reflexivity.
Qed.

(** C2, as amended.  The list of [helm_template] is the list of
    [helm_install] for the same configuration without the [--atomic] and
    [--dry-run] flags and without the [--timeout] pair: both start with
    release, chart reference, [--namespace] and namespace, and share the
    [-f] pairs and the [--version] pair, in the same order. *)
Theorem template_is_install_without_flags_and_timeout
    (wrkdir : str) (specs : Specs) :
  exists head tail,
    head = [release specs; load_chart specs;
            Some (lit "--namespace"); namespace specs] /\
    tail = values_files_pairs (load_values_files specs)
             ++ values_pair (values_target wrkdir specs)
             ++ version_pair specs /\
    template_args wrkdir specs = head ++ tail /\
    install_args wrkdir specs =
      head ++ atomic_flag specs ++ dry_run_flag specs
           ++ tail ++ timeout_pair specs.
Proof.
  unfold install_args, template_args.
  rewrite helm_install_params_pieces, helm_template_params_pieces.
  do 2 eexists. repeat split.
  now rewrite <- !app_assoc.
Qed.

(** C2, as stated, fails where a timeout is configured: with no [atomic]
    and no [dry-run] the install list has nothing to remove, and it still
    differs from the template list. *)
Lemma template_omits_timeout :
  let specs := config (Some (lit "template")) (Some (lit "r1"))
                 (Some (lit "c1")) (Some (lit "ns1")) (Some (lit "5m")) in
  let wrkdir := lit "/tmp/w" in
  without_atomic_dry_run specs = specs /\
  install_args wrkdir specs =
    [Some (lit "r1"); Some (lit "c1"); Some (lit "--namespace");
     Some (lit "ns1"); Some (lit "--timeout"); Some (lit "5m")] /\
  template_args wrkdir specs =
    [Some (lit "r1"); Some (lit "c1"); Some (lit "--namespace");
     Some (lit "ns1")] /\
  template_args wrkdir specs
    <> install_args wrkdir (without_atomic_dry_run specs).
Proof.
  repeat split. vm_compute. discriminate.
Qed.

Lemma values_target_truthy (wrkdir : str) (specs : Specs) :
  truthy (values_target wrkdir specs) = truthy (values specs).
Proof.
  unfold values_target. destruct (truthy (values specs)); [| reflexivity].
  unfold path_join. destruct wrkdir; reflexivity.
Qed.

(** The positional entries of an operation and its optional ones. *)
Lemma args_pieces (op : Operation) (wrkdir : str) (specs : Specs) :
  args op wrkdir specs =
  match op with
  | Install | Template =>
      [release specs; load_chart specs;
       Some (lit "--namespace"); namespace specs]
  | Upgrade =>
      [release specs; load_chart specs; Some (lit "--install");
       Some (lit "--namespace"); namespace specs]
  | Uninstall =>
      [release specs; Some (lit "--namespace"); namespace specs]
  end ++
  match op with
  | Install | Upgrade =>
      atomic_flag specs ++ dry_run_flag specs
        ++ values_files_pairs (load_values_files specs)
        ++ values_pair (values_target wrkdir specs)
        ++ version_pair specs ++ timeout_pair specs
  | Template =>
      values_files_pairs (load_values_files specs)
        ++ values_pair (values_target wrkdir specs)
        ++ version_pair specs
  | Uninstall => []
  end.
Proof.
  destruct op; unfold args, install_args, upgrade_args, template_args,
    uninstall_args.
  - apply helm_install_params_pieces.
  - apply helm_upgrade_params_pieces.
  - reflexivity.
  - apply helm_template_params_pieces.
Qed.

Lemma atomic_flag_present specs : Forall present (atomic_flag specs).
Proof.
  unfold atomic_flag. destruct (eq_str _ _); repeat constructor.
Qed.

Lemma dry_run_flag_present specs : Forall present (dry_run_flag specs).
Proof.
  unfold dry_run_flag. destruct (eq_str _ _); repeat constructor.
Qed.

Lemma version_pair_present specs : Forall present (version_pair specs).
Proof.
  unfold version_pair. destruct (truthy (chart_version specs)) eqn:E;
    repeat constructor. exact E.
Qed.

Lemma timeout_pair_present specs : Forall present (timeout_pair specs).
Proof.
  unfold timeout_pair. destruct (truthy (timeout specs)) eqn:E;
    repeat constructor. exact E.
Qed.

Lemma values_pair_present target : Forall present (values_pair target).
Proof.
  unfold values_pair. destruct (truthy target) eqn:E;
    repeat constructor. exact E.
Qed.

Lemma values_files_pairs_present files :
  Forall (fun f => nonempty f = true) files ->
  Forall present (values_files_pairs files).
Proof.
  induction 1 as [|f files Hf _ IH]; simpl; repeat constructor; trivial.
Qed.

Lemma load_values_files_nonempty specs :
  Forall (fun f => nonempty f = true) (load_values_files specs).
Proof.
  unfold load_values_files.
  destruct (values_files specs) as [[|c text]|]; try constructor.
  apply Forall_forall. intros f Hf. now apply filter_In in Hf.
Qed.

Create HintDb present.

#[local] Hint Resolve atomic_flag_present dry_run_flag_present
  version_pair_present timeout_pair_present values_pair_present
  values_files_pairs_present load_values_files_nonempty : present.

(** C3, as amended.  Every argument list is the positional entries of its
    operation followed by the entries of the options, and these are, in
    this order: [--atomic] and [--dry-run] (install and upgrade, each when
    its option is the string [true]), [-f] and the file for every entry
    of values-files, [-f] and [values.yaml] in the working directory when
    values is set and not empty, [--version] and the chart version when
    it is, [--timeout] and the timeout (install and upgrade) when it is.
    An option among atomic, dry-run, values-files, values, chart-version
    and timeout that is not set leaves nothing in the list, and the
    entries of the options are never empty or null.  Release, chart
    reference and namespace are always passed, set or not. *)
Theorem unset_options_are_omitted
    (op : Operation) (wrkdir : str) (specs : Specs) :
  let of_atomic : list (option str) :=
    if eq_str (atomic specs) (lit "true")
    then [Some (lit "--atomic")] else [] in
  let of_dry_run : list (option str) :=
    if eq_str (dry_run specs) (lit "true")
    then [Some (lit "--dry-run")] else [] in
  let of_values_files : list (option str) :=
    flat_map (fun file => [Some (lit "-f"); Some file])
      (load_values_files specs) in
  let of_values : list (option str) :=
    if truthy (values specs)
    then [Some (lit "-f"); Some (path_join wrkdir (lit "values.yaml"))]
    else [] in
  let of_chart_version : list (option str) :=
    if truthy (chart_version specs)
    then [Some (lit "--version"); chart_version specs] else [] in
  let of_timeout : list (option str) :=
    if truthy (timeout specs)
    then [Some (lit "--timeout"); timeout specs] else [] in
  exists positional optional,
    args op wrkdir specs = positional ++ optional /\
    positional =
      match op with
      | Install | Template =>
          [release specs; load_chart specs;
           Some (lit "--namespace"); namespace specs]
      | Upgrade =>
          [release specs; load_chart specs; Some (lit "--install");
           Some (lit "--namespace"); namespace specs]
      | Uninstall =>
          [release specs; Some (lit "--namespace"); namespace specs]
      end /\
    optional =
      match op with
      | Install | Upgrade =>
          of_atomic ++ of_dry_run ++ of_values_files ++ of_values
            ++ of_chart_version ++ of_timeout
      | Template => of_values_files ++ of_values ++ of_chart_version
      | Uninstall => []
      end /\
    (atomic specs = None -> of_atomic = []) /\
    (dry_run specs = None -> of_dry_run = []) /\
    (values_files specs = None -> of_values_files = []) /\
    (values specs = None -> of_values = []) /\
    (chart_version specs = None -> of_chart_version = []) /\
    (timeout specs = None -> of_timeout = []) /\
    Forall present optional /\
    List.length optional =
      match op with
      | Install | Upgrade =>
          Nat.b2n (eq_str (atomic specs) (lit "true"))
          + Nat.b2n (eq_str (dry_run specs) (lit "true"))
          + 2 * List.length (load_values_files specs)
          + 2 * Nat.b2n (truthy (values specs))
          + 2 * Nat.b2n (truthy (chart_version specs))
          + 2 * Nat.b2n (truthy (timeout specs))
      | Template =>
          2 * List.length (load_values_files specs)
          + 2 * Nat.b2n (truthy (values specs))
          + 2 * Nat.b2n (truthy (chart_version specs))
      | Uninstall => 0
      end.
Proof.
  intros of_atomic of_dry_run of_values_files of_values of_chart_version
    of_timeout.
  assert (Hlen : forall files,
             List.length (values_files_pairs files) = 2 * List.length files).
  { induction files as [|f files IH]; simpl in *; [reflexivity | lia]. }
  assert (Hvalues : values_pair (values_target wrkdir specs) = of_values).
  { unfold values_pair, of_values. rewrite values_target_truthy.
    unfold values_target. now destruct (truthy (values specs)). }
  rewrite args_pieces. do 2 eexists.
  split; [reflexivity |]. split; [reflexivity |].
  split; [now rewrite Hvalues |].
  split; [intros H; subst of_atomic; now rewrite H |].
  split; [intros H; subst of_dry_run; now rewrite H |].
  split; [intros H; subst of_values_files; unfold load_values_files;
          now rewrite H |].
  split; [intros H; subst of_values; now rewrite H |].
  split; [intros H; subst of_chart_version; now rewrite H |].
  split; [intros H; subst of_timeout; now rewrite H |].
  split.
  - destruct op; rewrite ?Forall_app; repeat split; auto with present.
  - destruct op; rewrite ?length_app, ?Hlen; trivial;
      unfold atomic_flag, dry_run_flag, values_pair, version_pair,
        timeout_pair;
      rewrite values_target_truthy;
      destruct (eq_str (atomic specs) (lit "true")),
        (eq_str (dry_run specs) (lit "true")), (truthy (values specs)),
        (truthy (chart_version specs)), (truthy (timeout specs));
      cbn [List.length Nat.b2n]; lia.
Qed.

(** C3, as stated, fails for the positional entries: with no release
    configured the list of [helm_uninstall] starts with a null entry. *)
Lemma unset_release_is_passed :
  let specs := config (Some (lit "uninstall")) None None
                 (Some (lit "ns1")) None in
  args Uninstall (lit "/tmp/w") specs =
    [None; Some (lit "--namespace"); Some (lit "ns1")] /\
  ~ Forall present (args Uninstall (lit "/tmp/w") specs).
Proof.
  split; [reflexivity |].
  intros H. inversion H as [|x l Hx _]. discriminate Hx.
Qed.

End ArgumentLists.

(* ================================================================== *)
(** ** Files *)

Module Files.
Import Py Eff PyFacts.

Lemma fs_exists_remove (path : str) (files : list (str * list N)) :
  fs_exists path (fs_remove path files) = false.
Proof.
  induction files as [|[p c] files IH]; simpl; [reflexivity |].
  destruct (str_eqb p path) eqn:E; [exact IH |].
  simpl. now rewrite E, IH.
Qed.

Lemma fs_remove_twice (path : str) (files : list (str * list N)) :
  fs_remove path (fs_remove path files) = fs_remove path files.
Proof.
  induction files as [|[p c] files IH]; [reflexivity |].
  simpl. destruct (str_eqb p path) eqn:E; [exact IH |].
  simpl. now rewrite E, IH.
Qed.

Lemma fs_exists_write (path : str) (content : list N) (w : World) :
  fs_exists path (fs (snd (write_file path content w))) = true.
Proof. simpl. now rewrite str_eqb_refl. Qed.

End Files.

(* ================================================================== *)
(** ** The inline values (section 4.2) *)

Module InlineValues.
Import Py Eff Action Args Samples Vocabulary PyFacts Files.

(** [load_values] never looks at what the parser says: the generator
    [ymlload] returns is dropped without being iterated.  What decides is
    whether there are values, and whether the file can take them. *)
Lemma load_values_spec (os : Host) (wrkdir : str) (specs : Specs) (w : World) :
  load_values os wrkdir specs w =
  match values specs with
  | Some (c :: text) =>
      if file_encodes os (c :: text) then
        (Ok (Some (path_join wrkdir (lit "values.yaml"))),
         mkWorld (stdout w)
           ((path_join wrkdir (lit "values.yaml"), c :: text)
              :: fs_remove (path_join wrkdir (lit "values.yaml")) (fs w))
           (tmpdirs w) (helm_calls w) (spawned w))
      else
        (Raised UnicodeEncodeError,
         mkWorld (stdout w)
           ((path_join wrkdir (lit "values.yaml"), [])
              :: fs_remove (path_join wrkdir (lit "values.yaml")) (fs w))
           (tmpdirs w) (helm_calls w) (spawned w))
  | _ => (Ok None, w)
  end.
Proof.
  unfold load_values. destruct (values specs) as [[|c text]|]; try reflexivity.
  unfold write_text, bind, try_except, ymlload, ret, write_file, raise.
  cbn [stdout fs tmpdirs helm_calls spawned].
  destruct (file_encodes os (c :: text)); [| reflexivity].
  cbn [stdout fs tmpdirs helm_calls spawned fs_remove].
  now rewrite str_eqb_refl, fs_remove_twice.
Qed.

Lemma load_values_returns (os : Host) (wrkdir : str) (specs : Specs)
    (w : World) :
  values_writable os specs = true ->
  fst (load_values os wrkdir specs w) = Ok (values_target wrkdir specs).
Proof.
  rewrite load_values_spec. unfold values_target, values_writable.
  destruct (values specs) as [[|c text]|]; try reflexivity.
  now intros ->.
Qed.

(** C5 at a text that is not YAML, on a host whose parser rejects every
    text: [load_values] prints nothing, does not exit, writes the text to
    [values.yaml] and returns the path. *)
Lemma load_values_writes_unparsed_text :
  yaml_parses (host_with []) (lit "a: [b") = false /\
  load_values (host_with []) (lit "/tmp/tmpw") values_unclosed empty_world =
    (Ok (Some (lit "/tmp/tmpw/values.yaml")),
     mkWorld [] [(lit "/tmp/tmpw/values.yaml", lit "a: [b")] [] [] []).
Proof. split; reflexivity. Qed.

End InlineValues.

(* ================================================================== *)
(** ** Running helm under the credential (sections 4.6, 4.7 and 4.9) *)

Module Lifecycle.
Import Py Eff Action Args Samples PyFacts Files.
Local Open Scope eff_scope.

Lemma bind_ok (A B : Type) (m : M A) (k : A -> M B) (w w' : World) (a : A) :
  m w = (Ok a, w') -> bind m k w = k a w'.
Proof. unfold bind. now intros ->. Qed.

Lemma bind_exit (A B : Type) (m : M A) (k : A -> M B) (w w' : World) code :
  m w = (SysExit code, w') -> bind m k w = (SysExit code, w').
Proof. unfold bind. now intros ->. Qed.

Lemma bind_raised (A B : Type) (m : M A) (k : A -> M B) (w w' : World) e :
  m w = (Raised e, w') -> bind m k w = (Raised e, w').
Proof. unfold bind. now intros ->. Qed.

(** [run_helm] leaves the files alone and records its call first. *)
Lemma run_helm_world (os : Host) cmd params env (w : World) :
  let w' := snd (run_helm os cmd params env w) in
  fs w' = fs w /\ stdout w' = stdout w /\ tmpdirs w' = tmpdirs w /\
  helm_calls w' =
    helm_calls w ++
      [(cmd, match params with Some (p :: ps) => p :: ps | _ => [] end)].
Proof.
  unfold run_helm, bind, note_call, note_spawn, ret, raise. simpl.
  destruct (join _ _); simpl; [| tauto].
  destruct (shlex_split os _); simpl; [| tauto].
  destruct (child os _ _); simpl; tauto.
Qed.

(** A bad credential: the diagnostic, exit code 1, and nothing else. *)
Lemma load_kubeconfig_bad (os : Host) (A : Type) wrkdir
    (block : str -> M A) (w : World) (e : Exn) :
  b64decode (credential os) = inl e ->
  load_kubeconfig os wrkdir block w =
    (SysExit 1%Z, with_stdout w (stdout w ++ [lit "Bad kubeconfig"])).
Proof.
  unfold credential, load_kubeconfig, bind, try_except, lift.
  intros ->. reflexivity.
Qed.

(** A credential that decodes: the file is written, the block runs, and
    the file is removed if the block ends normally. *)
Lemma load_kubeconfig_good (os : Host) (A : Type) wrkdir
    (block : str -> M A) (w : World) (decoded : bytes) :
  b64decode (credential os) = inr decoded ->
  load_kubeconfig os wrkdir block w = scoped wrkdir decoded block w.
Proof.
  unfold credential, load_kubeconfig, bind, try_except, lift.
  intros ->. reflexivity.
Qed.

(** When helm has run, the credential file is gone. *)
Lemma wrap_helm_removes_credential (os : Host) wrkdir cmd params exit
    (w : World) (decoded : bytes) (returncode : Z) w1 :
  b64decode (credential os) = inr decoded ->
  run_helm os cmd params [(lit "KUBECONFIG", kube_config wrkdir)]
    (snd (write_file (kube_config wrkdir) decoded w)) = (Ok returncode, w1) ->
  fs_exists (kube_config wrkdir)
    (fs (snd (wrap_helm os wrkdir cmd params exit w))) = false.
Proof.
  intros Hdec Hrun.
  pose proof (run_helm_world os cmd params
                [(lit "KUBECONFIG", kube_config wrkdir)]
                (snd (write_file (kube_config wrkdir) decoded w))) as Hw.
  rewrite Hrun in Hw. simpl in Hw. destruct Hw as (Hfs & _).
  assert (Hunlink : unlink (kube_config wrkdir) w1 =
                    (Ok tt, mkWorld (stdout w1)
                              (fs_remove (kube_config wrkdir) (fs w1))
                              (tmpdirs w1) (helm_calls w1) (spawned w1))).
  { unfold unlink. rewrite Hfs. cbn [fs_exists].
    now rewrite str_eqb_refl. }
  unfold wrap_helm.
  erewrite bind_ok.
  2:{ rewrite (load_kubeconfig_good _ _ _ _ Hdec). unfold scoped.
      erewrite bind_ok by reflexivity.
      erewrite bind_ok by exact Hrun.
      erewrite bind_ok by exact Hunlink.
      reflexivity. }
  destruct exit; simpl; apply fs_exists_remove.
Qed.

(** When helm could not be run, the exception leaves the scoped block
    and the credential file stays. *)
Lemma wrap_helm_leaves_credential (os : Host) wrkdir cmd params exit
    (w : World) (decoded : bytes) (e : Exn) w1 :
  b64decode (credential os) = inr decoded ->
  run_helm os cmd params [(lit "KUBECONFIG", kube_config wrkdir)]
    (snd (write_file (kube_config wrkdir) decoded w)) = (Raised e, w1) ->
  wrap_helm os wrkdir cmd params exit w = (Raised e, w1) /\
  fs_exists (kube_config wrkdir) (fs w1) = true.
Proof.
  intros Hdec Hrun.
  pose proof (run_helm_world os cmd params
                [(lit "KUBECONFIG", kube_config wrkdir)]
                (snd (write_file (kube_config wrkdir) decoded w))) as Hw.
  rewrite Hrun in Hw. simpl in Hw. destruct Hw as (Hfs & _).
  split.
  - unfold wrap_helm. apply bind_raised.
    rewrite (load_kubeconfig_good _ _ _ _ Hdec). unfold scoped.
    erewrite bind_ok by reflexivity.
    now apply bind_raised.
  - rewrite Hfs. cbn [fs_exists]. now rewrite str_eqb_refl.
Qed.

(** C1 at a configuration without a release: [" ".join] raises inside
    the scoped block, the run ends with that exception, and the credential
    file is still there. *)
Lemma credential_file_left_behind :
  let w := mkWorld [] [(lit "/tmp/tmpw/.kube_config.yml", [])]
             [lit "/tmp/tmpw"]
             [(lit "uninstall",
               [None; Some (lit "--namespace"); Some (lit "ns1")])] [] in
  run uninstall_without_release empty_world = (Raised TypeError, w) /\
  fs_exists (kube_config (mkdtemp uninstall_without_release)) (fs w) = true.
Proof. split; vm_compute; reflexivity. Qed.

(** C8.  With a mode that is none of install, upgrade, uninstall and
    template (an absent mode too) [run] prints its diagnostic and exits with
    code 1; no directory is made, no file written, no child started. *)
Theorem unknown_mode_exits (os : Host) (w : World) :
  ~ In (mode (load_inputs os))
       [Some (lit "install"); Some (lit "upgrade");
        Some (lit "uninstall"); Some (lit "template")] ->
  run os w =
    (SysExit 1%Z, with_stdout w (stdout w ++ [lit "Unknown `mode` specified."])).
Proof.
  intros Hmode. unfold run.
  assert (Hne : forall k, In (Some k) [Some (lit "install"); Some (lit "upgrade");
                          Some (lit "uninstall"); Some (lit "template")] ->
                eq_str (mode (load_inputs os)) k = false).
  { intros k Hk. destruct (eq_str (mode (load_inputs os)) k) eqn:E; trivial.
    apply eq_str_true in E. rewrite E in Hmode. contradiction. }
  cbn [dict_get].
  rewrite !Hne by (simpl; tauto).
  reflexivity.
Qed.

Lemma unknown_mode_exits_witness :
  run mode_delete empty_world =
    (SysExit 1%Z, mkWorld [lit "Unknown `mode` specified."] [] [] [] []).
Proof.
  apply (unknown_mode_exits mode_delete empty_world).
  vm_compute. intuition discriminate.
Defined.

(** The calls of helm an uninstall makes: one, unless the credential is
    bad, and none then. *)
Lemma helm_uninstall_calls (os : Host) wrkdir specs (w : World) :
  helm_calls (snd (helm_uninstall os wrkdir specs w)) =
  helm_calls w ++
    match b64decode (credential os) with
    | inr _ => [(lit "uninstall", helm_uninstall_params specs)]
    | inl _ => []
    end.
Proof.
  unfold helm_uninstall, wrap_helm.
  destruct (b64decode (credential os)) as [e|decoded] eqn:Hdec.
  - erewrite bind_exit by (eapply load_kubeconfig_bad; exact Hdec).
    simpl. now rewrite app_nil_r.
  - pose proof (run_helm_world os (lit "uninstall")
                  (Some (helm_uninstall_params specs))
                  [(lit "KUBECONFIG", kube_config wrkdir)]
                  (snd (write_file (kube_config wrkdir) decoded w))) as Hw.
    simpl in Hw. destruct Hw as (_ & _ & _ & Hcalls).
    unfold bind at 1. rewrite (load_kubeconfig_good _ _ _ _ Hdec).
    unfold scoped. erewrite bind_ok by reflexivity. unfold bind at 1.
    simpl (snd _) in Hcalls.
    destruct (run_helm _ _ _ _ _) as [[rc|code|e'] w1]; simpl in Hcalls;
      simpl; try exact Hcalls.
    unfold bind, unlink, ret.
    destruct (fs_exists _ _); simpl; exact Hcalls.
Qed.

(** C9.  For mode [uninstall], release [r1] and namespace [ns1] the
    argument list is exactly [r1], [--namespace], [ns1], and the only call
    of helm the run makes is [uninstall] with that list: no chart, no
    values, no repository registration. *)
Theorem uninstall_arguments (os : Host) (w : World) :
  mode (load_inputs os) = Some (lit "uninstall") ->
  release (load_inputs os) = Some (lit "r1") ->
  namespace (load_inputs os) = Some (lit "ns1") ->
  args Uninstall (mkdtemp os) (load_inputs os) =
    [Some (lit "r1"); Some (lit "--namespace"); Some (lit "ns1")] /\
  (forall call, In call (helm_calls (snd (run os w))) ->
     In call (helm_calls w) \/
     call = (lit "uninstall",
             [Some (lit "r1"); Some (lit "--namespace"); Some (lit "ns1")])) /\
  (forall decoded, b64decode (credential os) = inr decoded ->
     helm_calls (snd (run os w)) =
       helm_calls w ++
         [(lit "uninstall",
           [Some (lit "r1"); Some (lit "--namespace"); Some (lit "ns1")])]).
Proof.
  intros Hmode Hrel Hns.
  assert (Hargs : helm_uninstall_params (load_inputs os) =
                  [Some (lit "r1"); Some (lit "--namespace"); Some (lit "ns1")]).
  { unfold helm_uninstall_params. now rewrite Hrel, Hns. }
  assert (Hrun : helm_calls (snd (run os w)) =
                 helm_calls w ++
                   match b64decode (credential os) with
                   | inr _ => [(lit "uninstall",
                                helm_uninstall_params (load_inputs os))]
                   | inl _ => []
                   end).
  { unfold run. rewrite Hmode.
    change (dict_get _ (Some (lit "uninstall")))
      with (Some (helm_uninstall os)).
    cbv iota. erewrite bind_ok by reflexivity.
    now rewrite helm_uninstall_calls. }
  split; [exact Hargs |]. rewrite Hrun, Hargs. split.
  - intros call Hin. apply in_app_or in Hin. destruct Hin as [Hin|Hin].
    + now left.
    + right. destruct (b64decode (credential os)); simpl in Hin;
        [contradiction | destruct Hin as [<-|[]]; reflexivity].
  - intros decoded ->. reflexivity.
Qed.

Lemma uninstall_arguments_witness :
  args Uninstall (lit "/tmp/tmpw") (load_inputs uninstall_r1_ns1) =
    [Some (lit "r1"); Some (lit "--namespace"); Some (lit "ns1")] /\
  helm_calls (snd (run uninstall_r1_ns1 empty_world)) =
    [(lit "uninstall",
      [Some (lit "r1"); Some (lit "--namespace"); Some (lit "ns1")])].
Proof.
  destruct (uninstall_arguments uninstall_r1_ns1 empty_world)
    as (Hargs & _ & Hcalls); try reflexivity.
  split; [exact Hargs |].
  apply (Hcalls []). reflexivity.
Defined.

End Lifecycle.

(* ================================================================== *)
(** ** The list of values files (section 4.3) *)

Module ValuesFiles.
Import Py Action LinesSpec.

(** The boundaries named above are the ones [str.splitlines] knows. *)
Lemma boundary_is_linebreak (c : char) : boundary c = is_linebreak c.
Proof.
  destruct c as [|p]; [reflexivity |].
  do 14 (try (destruct p as [p|p|]; try reflexivity)).
Qed.

Lemma Lines_after_break (c : char) (s : str) (ls : list str) :
  boundary c = true -> Lines s ls -> Lines (c :: s) ls.
Proof.
  intros Hc H. destruct H as [seps Hseps | seps line rest ls Hseps Hne Hline Hb H].
  - apply Lines_end. simpl. now rewrite Hc.
  - change (c :: seps ++ line ++ rest) with ((c :: seps) ++ line ++ rest).
    apply Lines_line; trivial. simpl. now rewrite Hc.
Qed.

Lemma Lines_first (line rest : str) (ls : list str) :
  line <> [] ->
  forallb (fun c => negb (boundary c)) line = true ->
  at_boundary rest -> Lines rest ls -> Lines (line ++ rest) (line :: ls).
Proof. intros. now apply (@Lines_line [] line rest ls). Qed.

Lemma Lines_last (line : str) :
  line <> [] ->
  forallb (fun c => negb (boundary c)) line = true ->
  Lines line [line].
Proof.
  intros Hne Hline. rewrite <- (app_nil_r line) at 1.
  apply Lines_first; simpl; trivial. now apply Lines_end.
Qed.

Lemma rev_cons_not_nil (c : char) (line : str) : rev (c :: line) <> [].
Proof. simpl. intros H. now apply app_eq_nil in H. Qed.

Lemma nonempty_rev_cons (c : char) (line : str) :
  nonempty (rev (c :: line)) = true.
Proof. simpl. destruct (rev line); reflexivity. Qed.

Lemma forallb_rev (A : Type) (p : A -> bool) (l : list A) :
  forallb p l = true -> forallb p (rev l) = true.
Proof.
  rewrite !forallb_forall. intros H x Hx. apply H. now apply in_rev.
Qed.

Lemma splitlines_from_break (line : str) (c : char) (rest : str) :
  boundary c = true ->
  splitlines_from line (c :: rest) = rev line :: after_break c rest.
Proof. rewrite boundary_is_linebreak. intros Hc. simpl. now rewrite Hc. Qed.

Lemma splitlines_from_char (line : str) (c : char) (rest : str) :
  boundary c = false ->
  splitlines_from line (c :: rest) = splitlines_from (c :: line) rest.
Proof. rewrite boundary_is_linebreak. intros Hc. simpl. now rewrite Hc. Qed.

(** The scan is sound: what it emits, blank lines dropped, are the lines
    of the text.  By induction on a bound of the length, as CR LF makes the
    scan skip two characters. *)
Lemma splitlines_from_sound (n : nat) :
  forall (s line : str),
    List.length s <= n ->
    forallb (fun c => negb (boundary c)) line = true ->
    Lines (rev line ++ s) (filter nonempty (splitlines_from line s)).
Proof.
  induction n as [|n IH]; intros s line Hlen Hline.
  - destruct s as [|c rest]; [| simpl in Hlen; lia].
    rewrite app_nil_r. destruct line as [|c line]; cbn [splitlines_from].
    + apply Lines_end. reflexivity.
    + cbn [filter]. rewrite nonempty_rev_cons.
      apply Lines_last; [apply rev_cons_not_nil | now apply forallb_rev].
  - destruct s as [|c rest].
    + apply (IH [] line); [simpl; lia | exact Hline].
    + simpl in Hlen. destruct (boundary c) eqn:Hc.
      * rewrite splitlines_from_break by exact Hc.
        assert (Hrest : Lines (c :: rest)
                          (filter nonempty (after_break c rest))).
        { unfold after_break. destruct rest as [|d rest'].
          - apply Lines_after_break; trivial.
            apply (IH [] []); [simpl; lia | reflexivity].
          - destruct ((c =? CR)%N && (d =? LF)%N) eqn:Hcrlf.
            + apply andb_prop in Hcrlf. destruct Hcrlf as [_ Hd].
              apply N.eqb_eq in Hd. subst d.
              do 2 (apply Lines_after_break; trivial).
              apply (IH rest' []); [simpl in Hlen; lia | reflexivity].
            + apply Lines_after_break; trivial.
              apply (IH (d :: rest') []); [lia | reflexivity]. }
        destruct line as [|c0 line].
        -- exact Hrest.
        -- cbn [filter]. rewrite nonempty_rev_cons.
           apply Lines_first; trivial;
             [apply rev_cons_not_nil | now apply forallb_rev].
      * rewrite splitlines_from_char by exact Hc.
        replace (rev line ++ c :: rest) with (rev (c :: line) ++ rest)
          by (simpl; now rewrite <- app_assoc).
        apply IH; [lia |]. simpl. now rewrite Hc.
Qed.

(** Line boundaries in front of a text add only blank lines. *)
Lemma splitlines_skip_break (c : char) (s : str) :
  boundary c = true ->
  filter nonempty (splitlines_from [] (c :: s)) =
  filter nonempty (splitlines_from [] s).
Proof.
  intros Hc. rewrite splitlines_from_break by exact Hc.
  cbn [rev filter nonempty]. unfold after_break.
  destruct s as [|d s']; [reflexivity |].
  destruct ((c =? CR)%N && (d =? LF)%N) eqn:Hcrlf; [| reflexivity].
  apply andb_prop in Hcrlf. destruct Hcrlf as [_ Hd].
  apply N.eqb_eq in Hd. subst d.
  rewrite splitlines_from_break by reflexivity.
  cbn [rev filter nonempty]. unfold after_break.
  destruct s' as [|e s'']; reflexivity.
Qed.

Lemma splitlines_skip_breaks (seps s : str) :
  forallb boundary seps = true ->
  filter nonempty (splitlines_from [] (seps ++ s)) =
  filter nonempty (splitlines_from [] s).
Proof.
  induction seps as [|c seps IH]; intros H; [reflexivity |].
  simpl in H. apply andb_prop in H. destruct H as [Hc Hseps].
  simpl app. rewrite splitlines_skip_break by exact Hc. now apply IH.
Qed.

(** Characters that are no line boundaries go to the current line. *)
Lemma splitlines_from_line (line : str) :
  forall acc s,
    forallb (fun c => negb (boundary c)) line = true ->
    splitlines_from acc (line ++ s) = splitlines_from (rev line ++ acc) s.
Proof.
  induction line as [|c line IH]; intros acc s H; [reflexivity |].
  simpl in H. apply andb_prop in H. destruct H as [Hc Hline].
  apply negb_true_iff in Hc.
  simpl app. rewrite splitlines_from_char by exact Hc.
  rewrite IH by exact Hline. simpl. now rewrite <- app_assoc.
Qed.

(** The scan is complete: the lines of a text are what it emits. *)
Lemma splitlines_complete (s : str) (ls : list str) :
  Lines s ls -> filter nonempty (splitlines s) = ls.
Proof.
  unfold splitlines.
  induction 1 as [seps Hseps | seps line rest ls Hseps Hne Hline Hb _ IH].
  - rewrite <- (app_nil_r seps), splitlines_skip_breaks by exact Hseps.
    reflexivity.
  - rewrite splitlines_skip_breaks by exact Hseps.
    rewrite splitlines_from_line by exact Hline. rewrite app_nil_r.
    destruct rest as [|c rest].
    + simpl in IH. subst ls. simpl.
      destruct (rev line) eqn:E.
      * apply (f_equal (@rev _)) in E. rewrite rev_involutive in E.
        now subst line.
      * rewrite <- E, rev_involutive.
        destruct line; [congruence | reflexivity].
    + simpl in Hb.
      rewrite splitlines_skip_break in IH by exact Hb.
      rewrite splitlines_from_break by exact Hb.
      rewrite rev_involutive. cbn [filter].
      destruct line as [|c0 line]; [congruence |]. cbn [nonempty].
      f_equal.
      rewrite <- IH. unfold after_break.
      destruct rest as [|d rest']; [reflexivity |].
      destruct ((c =? CR)%N && (d =? LF)%N) eqn:Hcrlf; [| reflexivity].
      apply andb_prop in Hcrlf. destruct Hcrlf as [_ Hd].
      apply N.eqb_eq in Hd. subst d.
      now rewrite splitlines_skip_break.
Qed.

Lemma splitlines_sound (s : str) : Lines s (filter nonempty (splitlines s)).
Proof.
  apply (splitlines_from_sound (n := List.length s) s []);
    [apply Nat.le_refl | reflexivity].
Qed.

(** C7, as amended.  [load_values_files] returns the lines of the
    [values-files] string that are not empty, in their order, where a line
    ends at any of LF, CR, CR LF, VT, FF, FS, GS, RS, NEL, LS and PS: a
    list is the sequence of those lines exactly when it is the list
    returned.  With no input the list is empty, and a[LF][LF]b[LF] gives
    [a], [b]. *)
Theorem load_values_files_lines (specs : Specs) :
  (values_files specs = None -> load_values_files specs = []) /\
  (forall s, values_files specs = Some s ->
     forall ls, Lines s ls <-> load_values_files specs = ls) /\
  (values_files specs = Some (lit "a" ++ [LF; LF] ++ lit "b" ++ [LF]) ->
   load_values_files specs = [lit "a"; lit "b"]).
Proof.
  unfold load_values_files. split; [now intros -> |]. split.
  - intros s Hs ls. rewrite Hs. split.
    + intros Hl. apply splitlines_complete in Hl. destruct s; exact Hl.
    + intros <-.
      destruct s; [apply Lines_end; reflexivity | apply splitlines_sound].
  - now intros ->.
Qed.

Lemma load_values_files_lines_witness :
  let specs := mkSpecs None None None None None None None None None None
                 None (Some (lit "a" ++ [LF; LF] ++ lit "b" ++ [LF])) None in
  Lines (lit "a" ++ [LF; LF] ++ lit "b" ++ [LF]) [lit "a"; lit "b"] /\
  load_values_files specs = [lit "a"; lit "b"].
Proof.
  intros specs.
  destruct (load_values_files_lines specs) as (_ & Hlines & Hab).
  split; [| now apply Hab].
  apply (Hlines _ eq_refl). now apply Hab.
Defined.

(** C7, as stated, fails for a path with a form feed in it, which is one
    line of a newline-delimited string and two entries of the list
    returned. *)
Lemma form_feed_ends_a_line :
  let text := lit "charts/a" ++ [12%N] ++ lit "b.yaml" in
  let specs := mkSpecs None None None None None None None None None None
                 None (Some text) None in
  newline_delimited text = [text] /\
  load_values_files specs = [lit "charts/a"; lit "b.yaml"] /\
  load_values_files specs <> newline_delimited text.
Proof. repeat split. vm_compute. discriminate. Qed.

End ValuesFiles.

(* ================================================================== *)
(** ** The credential decoder (section 4.6) *)

Module Credential.
Import Py Eff Action Args Samples Base64Spec PyFacts Lifecycle.

(** *** Checks by enumeration *)

Lemma below_In (n : nat) (x : N) : (x < N.of_nat n)%N -> In x (below n).
Proof.
  induction n as [|n IH]; intros Hx; [lia |].
  simpl. destruct (N.eq_dec x (N.of_nat n)) as [->|Hne]; [now left |].
  right. apply IH. lia.
Qed.

Lemma all_below_spec (n : nat) (p : N -> bool) :
  all_below n p = true -> forall x, (x < N.of_nat n)%N -> p x = true.
Proof.
  unfold all_below. rewrite forallb_forall. intros H x Hx.
  apply H. now apply below_In.
Qed.

Lemma alphabet_decodes (v : N) :
  (v < 64)%N ->
  table_a2b_base64 (table_b2a_base64 v) = v /\
  (table_b2a_base64 v =? BASE64_PAD)%N = false.
Proof.
  intros Hv.
  assert (H : all_below 64
                (fun v => (table_a2b_base64 (table_b2a_base64 v) =? v)%N
                          && negb (table_b2a_base64 v =? BASE64_PAD)%N)
              = true) by (vm_compute; reflexivity).
  apply (all_below_spec _ _ H) in Hv.
  apply andb_prop in Hv. destruct Hv as [H1 H2].
  apply N.eqb_eq in H1. apply negb_true_iff in H2. now split.
Qed.

(** The first two characters of a group give back the first byte. *)
Lemma first_byte (x y : N) :
  (x < 256)%N -> (y < 256)%N ->
  (sextet0 x < 64)%N /\ (sextet1 x y < 64)%N /\
  N.land (N.lor (N.shiftl (sextet0 x) 2) (N.shiftr (sextet1 x y) 4)) 255 = x /\
  N.land (sextet1 x y) 15 = N.shiftr y 4.
Proof.
  intros Hx Hy.
  assert (H : all_below 256 (fun x => all_below 256 (fun y =>
                (sextet0 x <? 64)%N && (sextet1 x y <? 64)%N
                && (N.land (N.lor (N.shiftl (sextet0 x) 2)
                                  (N.shiftr (sextet1 x y) 4)) 255 =? x)%N
                && (N.land (sextet1 x y) 15 =? N.shiftr y 4)%N)) = true)
    by (vm_compute; reflexivity).
  apply (all_below_spec _ _ H) in Hx. apply (all_below_spec _ _ Hx) in Hy.
  repeat (apply andb_prop in Hy; destruct Hy as [Hy ?]).
  repeat split; try (now apply N.ltb_lt); now apply N.eqb_eq.
Qed.

(** The third character gives back the second byte. *)
Lemma second_byte (y z : N) :
  (y < 256)%N -> (z < 256)%N ->
  (sextet2 y z < 64)%N /\
  N.land (N.lor (N.shiftl (N.shiftr y 4) 4) (N.shiftr (sextet2 y z) 2)) 255 = y /\
  N.land (sextet2 y z) 3 = N.shiftr z 6.
Proof.
  intros Hy Hz.
  assert (H : all_below 256 (fun y => all_below 256 (fun z =>
                (sextet2 y z <? 64)%N
                && (N.land (N.lor (N.shiftl (N.shiftr y 4) 4)
                                  (N.shiftr (sextet2 y z) 2)) 255 =? y)%N
                && (N.land (sextet2 y z) 3 =? N.shiftr z 6)%N)) = true)
    by (vm_compute; reflexivity).
  apply (all_below_spec _ _ H) in Hy. apply (all_below_spec _ _ Hy) in Hz.
  repeat (apply andb_prop in Hz; destruct Hz as [Hz ?]).
  repeat split; try (now apply N.ltb_lt); now apply N.eqb_eq.
Qed.

(** The fourth character gives back the third byte. *)
Lemma third_byte (z : N) :
  (z < 256)%N ->
  (sextet3 z < 64)%N /\
  N.land (N.lor (N.shiftl (N.shiftr z 6) 6) (sextet3 z)) 255 = z.
Proof.
  intros Hz.
  assert (H : all_below 256 (fun z =>
                (sextet3 z <? 64)%N
                && (N.land (N.lor (N.shiftl (N.shiftr z 6) 6) (sextet3 z)) 255
                    =? z)%N) = true)
    by (vm_compute; reflexivity).
  apply (all_below_spec _ _ H) in Hz.
  apply andb_prop in Hz. destruct Hz as [H1 H2].
  split; [now apply N.ltb_lt | now apply N.eqb_eq].
Qed.

(** *** The decoder on the alphabet *)

(** One step of the loop on a character of the alphabet. *)
Lemma a2b_loop_symbol (v : N) (rest : bytes) (quad_pos leftchar pads : N)
    (out : bytes) :
  (v < 64)%N ->
  a2b_loop (table_b2a_base64 v :: rest) quad_pos leftchar pads out =
  match quad_pos with
  | 0%N => a2b_loop rest 1%N v 0%N out
  | 1%N =>
      a2b_loop rest 2%N (N.land v 15) 0%N
        (out ++ [N.land (N.lor (N.shiftl leftchar 2) (N.shiftr v 4)) 255])
  | 2%N =>
      a2b_loop rest 3%N (N.land v 3) 0%N
        (out ++ [N.land (N.lor (N.shiftl leftchar 4) (N.shiftr v 2)) 255])
  | _ =>
      a2b_loop rest 0%N 0%N 0%N
        (out ++ [N.land (N.lor (N.shiftl leftchar 6) v) 255])
  end.
Proof.
  intros Hv. destruct (alphabet_decodes Hv) as [Htable Hpad].
  cbn [a2b_loop]. rewrite Hpad, Htable.
  replace (64 <=? v)%N with false by (symmetry; apply N.leb_gt; exact Hv).
  reflexivity.
Qed.

(** A character the decoder does not react to changes nothing. *)
Lemma a2b_loop_other (c : N) (rest : bytes) (quad_pos leftchar pads : N)
    (out : bytes) :
  b64_symbol c = false ->
  a2b_loop (c :: rest) quad_pos leftchar pads out =
  a2b_loop rest quad_pos leftchar pads out.
Proof.
  unfold b64_symbol. intros H. apply orb_false_elim in H.
  destruct H as [Hpad Htable]. apply N.ltb_ge in Htable.
  cbn [a2b_loop]. rewrite Hpad.
  replace (64 <=? table_a2b_base64 c)%N with true
    by (symmetry; apply N.leb_le; exact Htable).
  reflexivity.
Qed.

Lemma a2b_loop_filter (data : bytes) :
  forall quad_pos leftchar pads out,
    a2b_loop data quad_pos leftchar pads out =
    a2b_loop (filter b64_symbol data) quad_pos leftchar pads out.
Proof.
  induction data as [|c data IH]; intros quad_pos leftchar pads out;
    [reflexivity |].
  cbn [filter]. destruct (b64_symbol c) eqn:Hc.
  - cbn [a2b_loop].
    destruct (c =? BASE64_PAD)%N.
    + destruct (2 <=? quad_pos)%N; [| apply IH].
      destruct (4 <=? quad_pos + (pads + 1))%N; [reflexivity | apply IH].
    + cbv zeta. destruct (64 <=? table_a2b_base64 c)%N; [apply IH |].
      destruct quad_pos as [|[p|p|]]; try destruct p; apply IH.
  - rewrite a2b_loop_other by exact Hc. apply IH.
Qed.

Lemma list_ind3 (A : Type) (P : list A -> Prop) :
  P [] ->
  (forall x, P [x]) ->
  (forall x y, P [x; y]) ->
  (forall x y z rest, P rest -> P (x :: y :: z :: rest)) ->
  forall l, P l.
Proof.
  intros H0 H1 H2 H3. fix F 1.
  intros [|x [|y [|z rest]]];
    [exact H0 | apply H1 | apply H2 | apply H3; apply F].
Qed.

(** Decoding the base64 text of a sequence of bytes gives it back. *)
Lemma a2b_loop_b64encode (data : bytes) :
  is_bytes data = true ->
  forall leftchar pads out,
    a2b_loop (b64encode data) 0 leftchar pads out = Some (out ++ data).
Proof.
  unfold is_bytes.
  induction data as [| x | x y | x y z rest IH] using list_ind3;
    intros Hdata leftchar pads out; cbn [forallb] in Hdata;
    repeat (apply andb_prop in Hdata; destruct Hdata as [?Hb Hdata]);
    repeat match goal with H : (_ <? 256)%N = true |- _ =>
             apply N.ltb_lt in H end.
  - simpl. now rewrite app_nil_r.
  - destruct (@first_byte x 0) as (Hv0 & Hv1 & Hx & _); [assumption | lia |].
    cbn [b64encode].
    rewrite (a2b_loop_symbol _ _ _ _ _ Hv0), (a2b_loop_symbol _ _ _ _ _ Hv1).
    rewrite Hx. reflexivity.
  - destruct (@first_byte x y) as (Hv0 & Hv1 & Hx & Hl); [assumption .. |].
    destruct (@second_byte y 0) as (Hv2 & Hy & _); [assumption | lia |].
    cbn [b64encode].
    rewrite (a2b_loop_symbol _ _ _ _ _ Hv0), (a2b_loop_symbol _ _ _ _ _ Hv1),
      (a2b_loop_symbol _ _ _ _ _ Hv2).
    rewrite Hx, Hl, Hy, <- app_assoc. reflexivity.
  - destruct (@first_byte x y) as (Hv0 & Hv1 & Hx & Hl); [assumption .. |].
    destruct (@second_byte y z) as (Hv2 & Hy & Hl'); [assumption .. |].
    destruct (@third_byte z) as (Hv3 & Hz); [assumption |].
    cbn [b64encode].
    rewrite (a2b_loop_symbol _ _ _ _ _ Hv0), (a2b_loop_symbol _ _ _ _ _ Hv1),
      (a2b_loop_symbol _ _ _ _ _ Hv2), (a2b_loop_symbol _ _ _ _ _ Hv3).
    rewrite Hx, Hl, Hy, Hl', Hz, IH by exact Hdata.
    now rewrite <- !app_assoc.
Qed.

(** *** [b64decode] on a credential *)

Lemma encode_ascii_ascii (s : str) :
  is_ascii s = true -> encode_ascii s = Some s.
Proof.
  unfold is_ascii. induction s as [|c s IH]; intros H; [reflexivity |].
  simpl in H. apply andb_prop in H. destruct H as [Hc Hs].
  simpl. now rewrite Hc, IH.
Qed.

Lemma encode_ascii_other (s : str) :
  is_ascii s = false -> encode_ascii s = None.
Proof.
  unfold is_ascii. induction s as [|c s IH]; intros H; [discriminate |].
  simpl in H. simpl. destruct (c <? 128)%N; [| reflexivity].
  now rewrite IH.
Qed.

Lemma is_ascii_filter (p : N -> bool) (s : str) :
  is_ascii s = true -> is_ascii (filter p s) = true.
Proof.
  unfold is_ascii. rewrite !forallb_forall. intros H c Hc.
  apply filter_In in Hc. now apply H.
Qed.

Lemma filter_twice (A : Type) (p : A -> bool) (l : list A) :
  filter p (filter p l) = filter p l.
Proof.
  induction l as [|x l IH]; [reflexivity |].
  simpl. destruct (p x) eqn:E; [| exact IH]. simpl. now rewrite E, IH.
Qed.

(** A text that is not ASCII is refused. *)
Lemma b64decode_not_ascii (s : str) :
  is_ascii s = false -> b64decode s = inl ValueError.
Proof.
  intros H. unfold b64decode. now rewrite encode_ascii_other.
Qed.

(** In an ASCII text the characters outside the alphabet do not count. *)
Lemma b64decode_discards (s : str) :
  is_ascii s = true -> b64decode s = b64decode (filter b64_symbol s).
Proof.
  intros H. unfold b64decode, a2b_base64.
  rewrite !encode_ascii_ascii by (trivial; now apply is_ascii_filter).
  rewrite (a2b_loop_filter s), (a2b_loop_filter (filter b64_symbol s)).
  now rewrite filter_twice.
Qed.

(** ... so a base64 text with such characters put in decodes to the bytes
    it encodes. *)
Lemma b64decode_of_b64encode (s : str) (data : bytes) :
  is_ascii s = true -> is_bytes data = true ->
  filter b64_symbol s = b64encode data ->
  b64decode s = inr data.
Proof.
  intros Hs Hdata Henc. unfold b64decode, a2b_base64.
  rewrite encode_ascii_ascii by exact Hs.
  rewrite a2b_loop_filter, Henc, a2b_loop_b64encode by exact Hdata.
  reflexivity.
Qed.

(** C10, as amended.  The decoder is lenient on ASCII: the characters of
    the credential that are neither in the base64 alphabet nor the pad are
    discarded, and when what is left is the base64 text of some bytes the
    scoped block runs with just these bytes in the credential file.  A
    credential with a character that is not ASCII is refused.  The
    diagnostic and exit code 1 come with a decoding error and with nothing
    else: whenever the credential decodes, the block runs. *)
Theorem credential_decoder_is_lenient (os : Host) (A : Type) (wrkdir : str)
    (block : str -> M A) (w : World) :
  (is_ascii (credential os) = true ->
   b64decode (credential os) =
     b64decode (filter b64_symbol (credential os))) /\
  (is_ascii (credential os) = true ->
   forall data, is_bytes data = true ->
     filter b64_symbol (credential os) = b64encode data ->
     load_kubeconfig os wrkdir block w = scoped wrkdir data block w) /\
  (is_ascii (credential os) = false ->
   load_kubeconfig os wrkdir block w =
     (SysExit 1%Z, with_stdout w (stdout w ++ [lit "Bad kubeconfig"]))) /\
  (forall e, b64decode (credential os) = inl e ->
     load_kubeconfig os wrkdir block w =
       (SysExit 1%Z, with_stdout w (stdout w ++ [lit "Bad kubeconfig"]))) /\
  (forall decoded, b64decode (credential os) = inr decoded ->
     load_kubeconfig os wrkdir block w = scoped wrkdir decoded block w).
Proof.
  split; [apply b64decode_discards |].
  split.
  { intros Hs data Hdata Henc. apply load_kubeconfig_good.
    now apply b64decode_of_b64encode. }
  split.
  { intros Hs. apply (@load_kubeconfig_bad os A wrkdir block w ValueError).
    now apply b64decode_not_ascii. }
  split.
  - intros e. apply load_kubeconfig_bad.
  - intros decoded. apply load_kubeconfig_good.
Qed.

(** A credential with a dash in it: the dash is dropped and the block runs
    with the bytes of [abc] in the file. *)
Lemma credential_decoder_is_lenient_witness :
  filter b64_symbol (credential uninstall_dash) = b64encode (lit "abc") /\
  load_kubeconfig uninstall_dash (lit "/tmp/tmpw") (fun _ => ret 0%Z)
    empty_world =
  scoped (lit "/tmp/tmpw") (lit "abc") (fun _ => ret 0%Z) empty_world.
Proof.
  split; [reflexivity |].
  destruct (credential_decoder_is_lenient uninstall_dash (lit "/tmp/tmpw")
              (fun _ => ret 0%Z) empty_world) as (_ & H & _).
  apply H; reflexivity.
Defined.

(** The whole run on that credential: helm is started and the run ends
    with its return code. *)
Lemma malformed_credential_proceeds :
  run uninstall_dash empty_world =
    (SysExit 0%Z,
     mkWorld [] [] [lit "/tmp/tmpw"]
       [(lit "uninstall",
         [Some (lit "r1"); Some (lit "--namespace"); Some (lit "ns1")])]
       [[lit "helm"; lit "uninstall"; lit "r1"; lit "--namespace";
         lit "ns1"]]).
Proof. vm_compute. reflexivity. Qed.

(** C10, as stated, fails on a character that is not ASCII: the only
    defect of the credential is one such character behind the base64 text
    of [abc], and the run ends with the diagnostic and exit code 1. *)
Lemma non_ascii_credential_is_refused :
  filter b64_symbol (credential uninstall_e_acute) = b64encode (lit "abc") /\
  b64decode (credential uninstall_e_acute) = inl ValueError /\
  run uninstall_e_acute empty_world =
    (SysExit 1%Z,
     mkWorld [lit "Bad kubeconfig"] [] [lit "/tmp/tmpw"] [] []).
Proof. repeat split; vm_compute; reflexivity. Qed.

End Credential.

(* ================================================================== *)
(** ** The inline values file, read back *)

Module InlineValuesFile.
Import Py Eff Action Args Vocabulary PyFacts InlineValues.

Lemma fs_read_remove_other (path other : str) (files : list (str * list N)) :
  other <> path ->
  fs_read other (fs_remove path files) = fs_read other files.
Proof.
  intros Hne. induction files as [|[p c] files IH]; [reflexivity |].
  simpl. destruct (str_eqb p path) eqn:Ep.
  - apply str_eqb_eq in Ep. subst p.
    destruct (str_eqb path other) eqn:Eo; [| exact IH].
    apply str_eqb_eq in Eo. congruence.
  - simpl. now rewrite IH.
Qed.

(** X2.  With [values] set and text the encoding of text files can take,
    [load_values] returns the path of [values.yaml] in the working
    directory, that file then holds the text character for character, and
    no other file, nothing printed and no child process is touched.  With
    text the encoding cannot take, [load_values] ends with
    [UnicodeEncodeError] and leaves [values.yaml] empty.  With [values]
    unset or empty it returns no path and changes nothing. *)
Theorem load_values_file_holds_text (os : Host) (wrkdir : str)
    (specs : Specs) (w : World) :
  (truthy (values specs) = false ->
   load_values os wrkdir specs w = (Ok None, w)) /\
  (forall text, values specs = Some text -> truthy (values specs) = true ->
     let w' := snd (load_values os wrkdir specs w) in
     (file_encodes os text = true ->
      fst (load_values os wrkdir specs w) = Ok (Some (values_yaml wrkdir)) /\
      fs_read (values_yaml wrkdir) (fs w') = Some text) /\
     (file_encodes os text = false ->
      fst (load_values os wrkdir specs w) = Raised UnicodeEncodeError /\
      fs_read (values_yaml wrkdir) (fs w') = Some []) /\
     (forall other, other <> values_yaml wrkdir ->
        fs_read other (fs w') = fs_read other (fs w)) /\
     stdout w' = stdout w /\ tmpdirs w' = tmpdirs w /\
     helm_calls w' = helm_calls w /\ spawned w' = spawned w).
Proof.
  split.
  - intros H. unfold load_values.
    destruct (values specs) as [[|c text]|]; try reflexivity. discriminate.
  - intros text Htext Htruthy. rewrite Htext in Htruthy.
    destruct text as [|c text]; [discriminate |].
    rewrite load_values_spec, Htext. fold (values_yaml wrkdir).
    destruct (file_encodes os (c :: text));
      cbn [fst snd stdout fs tmpdirs helm_calls spawned fs_read];
      rewrite str_eqb_refl; repeat split; trivial; try discriminate;
      intros other Hne;
      (destruct (str_eqb (values_yaml wrkdir) other) eqn:E;
       [apply str_eqb_eq in E; congruence
       | now apply fs_read_remove_other]).
Qed.

Lemma load_values_file_holds_text_witness :
  fs_read (lit "/tmp/tmpw/values.yaml")
    (fs (snd (load_values (host_shlex []) (lit "/tmp/tmpw")
                (load_inputs install_from_repo) empty_world))) =
    Some (lit "a: 1") /\
  fst (load_values (host_shlex []) (lit "/tmp/tmpw")
         (load_inputs install_values_not_utf8) empty_world) =
    Raised UnicodeEncodeError.
Proof.
  split.
  - destruct (load_values_file_holds_text (host_shlex []) (lit "/tmp/tmpw")
                (load_inputs install_from_repo) empty_world) as (_ & H).
    destruct (H (lit "a: 1")) as ((_ & Hread) & _); [reflexivity .. |].
    exact Hread.
  - destruct (load_values_file_holds_text (host_shlex []) (lit "/tmp/tmpw")
                (load_inputs install_values_not_utf8) empty_world)
      as (_ & H).
    destruct (H (lit "a: " ++ [56575%N])) as (_ & (Hraise & _) & _);
      [reflexivity .. |].
    exact Hraise.
Defined.

End InlineValuesFile.

(* ================================================================== *)
(** ** The list of values files, further *)

Module ValuesFilesContent.
Import Py Action LinesSpec ValuesFiles.

Lemma forallb_boundary (l : str) :
  forallb is_linebreak l = forallb boundary l.
Proof.
  induction l as [|c l IH]; [reflexivity |].
  simpl. now rewrite boundary_is_linebreak, IH.
Qed.

Lemma forallb_no_boundary (l : str) :
  forallb (fun c => negb (is_linebreak c)) l =
  forallb (fun c => negb (boundary c)) l.
Proof.
  induction l as [|c l IH]; [reflexivity |].
  simpl. now rewrite boundary_is_linebreak, IH.
Qed.

Lemma filter_no_boundary (l : str) :
  filter (fun c => negb (is_linebreak c)) l =
  filter (fun c => negb (boundary c)) l.
Proof.
  induction l as [|c l IH]; [reflexivity |].
  simpl. now rewrite boundary_is_linebreak, IH.
Qed.

Lemma entries_no_boundary (ls : list str) :
  Forall (fun f => f <> [] /\
                   forallb (fun c => negb (is_linebreak c)) f = true) ls <->
  Forall (fun f => f <> [] /\
                   forallb (fun c => negb (boundary c)) f = true) ls.
Proof.
  split; apply Forall_impl; intros f [Hne Hf]; split; trivial;
    now rewrite forallb_no_boundary in *.
Qed.

Lemma filter_breaks_only (seps : str) :
  forallb boundary seps = true ->
  filter (fun c => negb (boundary c)) seps = [].
Proof.
  induction seps as [|c seps IH]; intros H; [reflexivity |].
  simpl in H. apply andb_prop in H. destruct H as [Hc Hseps].
  simpl. rewrite Hc. now apply IH.
Qed.

Lemma filter_no_breaks (line : str) :
  forallb (fun c => negb (boundary c)) line = true ->
  filter (fun c => negb (boundary c)) line = line.
Proof.
  induction line as [|c line IH]; intros H; [reflexivity |].
  simpl in H. apply andb_prop in H. destruct H as [Hc Hline].
  simpl. rewrite Hc. now rewrite IH.
Qed.

Lemma Lines_content (s : str) (ls : list str) :
  Lines s ls ->
  List.concat ls = filter (fun c => negb (boundary c)) s /\
  Forall (fun f => f <> [] /\
                   forallb (fun c => negb (boundary c)) f = true) ls.
Proof.
  induction 1 as [seps Hseps | seps line rest ls Hseps Hne Hline _ _ IH].
  - split; [| constructor]. now rewrite filter_breaks_only.
  - destruct IH as [IHc IHf]. split.
    + rewrite !filter_app, filter_breaks_only, filter_no_breaks by assumption.
      simpl. now rewrite IHc.
    + constructor; [now split | exact IHf].
Qed.

(** X3.  The entries [load_values_files] returns hold, in order, every character
    of the input that is no line boundary, and nothing else: put together
    they are the input without its line boundaries.  No entry is empty and
    no entry has a line boundary in it. *)
Theorem load_values_files_keeps_characters (specs : Specs) :
  List.concat (load_values_files specs) =
    match values_files specs with
    | Some text => filter (fun c => negb (is_linebreak c)) text
    | None => []
    end /\
  Forall (fun f => f <> [] /\
                   forallb (fun c => negb (is_linebreak c)) f = true)
    (load_values_files specs).
Proof.
  rewrite entries_no_boundary. unfold load_values_files.
  destruct (values_files specs) as [[|c text]|];
    try (split; [reflexivity | constructor]).
  rewrite filter_no_boundary. apply Lines_content, splitlines_sound.
Qed.

Lemma Lines_after_breaks (seps s : str) (ls : list str) :
  forallb boundary seps = true -> Lines s ls -> Lines (seps ++ s) ls.
Proof.
  induction seps as [|c seps IH]; intros H Hl; [exact Hl |].
  simpl in H. apply andb_prop in H. destruct H as [Hc Hseps].
  simpl. apply Lines_after_break; [exact Hc | now apply IH].
Qed.

Lemma at_boundary_breaks (seps s : str) :
  forallb boundary seps = true -> at_boundary s -> at_boundary (seps ++ s).
Proof.
  destruct seps as [|c seps]; intros H Hs; [exact Hs |].
  simpl in H. apply andb_prop in H. now destruct H.
Qed.

Lemma Lines_joined (sep tail : str) (paths : list str) :
  sep <> [] ->
  forallb boundary sep = true ->
  forallb boundary tail = true ->
  Forall (fun f => f <> [] /\
                   forallb (fun c => negb (boundary c)) f = true) paths ->
  Lines (join_strs sep paths ++ tail) paths.
Proof.
  intros Hne Hsep Htail Hpaths.
  induction Hpaths as [|x paths [Hx Hxl] Hrest IH].
  - now apply Lines_end.
  - destruct paths as [|y paths].
    + cbn [join_strs]. apply Lines_first; trivial.
      rewrite <- (app_nil_r tail). now apply at_boundary_breaks.
    + change (join_strs sep (x :: y :: paths))
        with (x ++ sep ++ join_strs sep (y :: paths)).
      rewrite <- !app_assoc. apply Lines_first; trivial.
      * destruct sep as [|c sep]; [congruence |].
        simpl in Hsep. apply andb_prop in Hsep. now destruct Hsep.
      * now apply Lines_after_breaks.
Qed.

(** X4.  Joining paths with a line boundary and resolving gives the paths back:
    for paths that are not empty and have no line boundary inside, joined
    by LF, CR LF or any other run of line boundaries, with or without line
    boundaries at the end, [load_values_files] returns just these paths. *)
Theorem load_values_files_of_joined (specs : Specs) (sep tail : str)
    (paths : list str) :
  values_files specs = Some (join_strs sep paths ++ tail) ->
  sep <> [] ->
  forallb is_linebreak sep = true ->
  forallb is_linebreak tail = true ->
  Forall (fun f => f <> [] /\
                   forallb (fun c => negb (is_linebreak c)) f = true) paths ->
  load_values_files specs = paths.
Proof.
  intros Hvalues Hne Hsep Htail Hpaths.
  rewrite forallb_boundary in Hsep, Htail. apply entries_no_boundary in Hpaths.
  pose proof (@Lines_joined sep tail paths Hne Hsep Htail Hpaths) as Hl.
  apply splitlines_complete in Hl.
  unfold load_values_files. rewrite Hvalues.
  destruct (join_strs sep paths ++ tail); exact Hl.
Qed.

Lemma load_values_files_of_joined_witness :
  let specs := mkSpecs None None None None None None None None None None
                 None
                 (Some (join_strs [CR; LF] [lit "a.yaml"; lit "b.yaml"]
                          ++ [LF]))
                 None in
  load_values_files specs = [lit "a.yaml"; lit "b.yaml"].
Proof.
  intros specs.
  apply (@load_values_files_of_joined specs [CR; LF] [LF]);
    try reflexivity; [discriminate |].
  repeat constructor; discriminate.
Defined.

End ValuesFilesContent.

(* ================================================================== *)
(** ** The credential, further *)

Module CredentialBytes.
Import Py Eff Action Args Samples Base64Spec Vocabulary PyFacts Lifecycle
  Credential.

Lemma table_b2a_base64_ascii (v : N) : (table_b2a_base64 v <? 128)%N = true.
Proof.
  unfold table_b2a_base64. apply N.ltb_lt.
  destruct (v <? 26)%N eqn:E1; [apply N.ltb_lt in E1; lia |].
  destruct (v <? 52)%N eqn:E2; [apply N.ltb_lt in E2; lia |].
  destruct (v <? 62)%N eqn:E3; [apply N.ltb_lt in E3; lia |].
  destruct (v =? 62)%N; lia.
Qed.

Lemma b64encode_ascii (data : bytes) : is_ascii (b64encode data) = true.
Proof.
  unfold is_ascii.
  induction data as [| x | x y | x y z rest IH] using list_ind3;
    cbn [b64encode forallb]; rewrite ?table_b2a_base64_ascii; trivial.
Qed.

(** X5.  A credential that is the base64 text of some bytes decodes to just
    these bytes, and they are what the credential file holds while the
    scoped block runs. *)
Theorem credential_round_trip (os : Host) (A : Type) (wrkdir : str)
    (block : str -> M A) (w : World) (data : bytes) :
  is_bytes data = true ->
  credential os = b64encode data ->
  b64decode (credential os) = inr data /\
  load_kubeconfig os wrkdir block w =
    bind (block (kube_config wrkdir))
      (fun r => bind (unlink (kube_config wrkdir)) (fun _ => ret r))
      (with_fs w ((kube_config wrkdir, data)
                    :: fs_remove (kube_config wrkdir) (fs w))).
Proof.
  intros Hdata Hcred.
  assert (Hdec : b64decode (credential os) = inr data).
  { rewrite Hcred. unfold b64decode, a2b_base64.
    rewrite encode_ascii_ascii by apply b64encode_ascii.
    now rewrite a2b_loop_b64encode. }
  split; [exact Hdec |].
  rewrite (load_kubeconfig_good _ _ _ _ Hdec). unfold scoped.
  now erewrite bind_ok by reflexivity.
Qed.

Lemma credential_round_trip_witness :
  b64decode (credential install_atomic) = inr (lit "abc").
Proof.
  destruct (@credential_round_trip install_atomic Z (lit "/tmp/tmpw")
              (fun _ => ret 0%Z) empty_world (lit "abc")) as (H & _);
    [reflexivity .. |].
  exact H.
Defined.

Lemma land_255_byte (x : N) : (N.land x 255 <? 256)%N = true.
Proof.
  apply N.ltb_lt. change 255%N with (N.ones 8).
  rewrite N.land_ones. now apply N.mod_lt.
Qed.

Lemma is_bytes_snoc (out : bytes) (x : N) :
  is_bytes out = true -> is_bytes (out ++ [N.land x 255]) = true.
Proof.
  unfold is_bytes. intros H. rewrite forallb_app, H. simpl.
  now rewrite land_255_byte.
Qed.

Lemma a2b_loop_bytes (data : bytes) :
  forall quad_pos leftchar pads out decoded,
    is_bytes out = true ->
    a2b_loop data quad_pos leftchar pads out = Some decoded ->
    is_bytes decoded = true.
Proof.
  induction data as [|c data IH]; intros quad_pos leftchar pads out decoded
    Hout Hloop; cbn [a2b_loop] in Hloop.
  - destruct (quad_pos =? 0)%N; [| discriminate]. now injection Hloop as <-.
  - destruct (c =? BASE64_PAD)%N.
    + destruct (2 <=? quad_pos)%N; [| now apply IH in Hloop].
      destruct (4 <=? quad_pos + (pads + 1))%N; [| now apply IH in Hloop].
      now injection Hloop as <-.
    + cbv zeta in Hloop.
      destruct (64 <=? table_a2b_base64 c)%N; [now apply IH in Hloop |].
      destruct quad_pos as [|[p|p|]]; try destruct p;
        apply IH in Hloop; trivial; now apply is_bytes_snoc.
Qed.

(** X6.  Whatever [b64decode] returns for a credential is a sequence of bytes:
    every value written to the credential file is below 256. *)
Theorem b64decode_gives_bytes (s : str) (decoded : bytes) :
  b64decode s = inr decoded -> is_bytes decoded = true.
Proof.
  unfold b64decode, a2b_base64. intros H.
  destruct (encode_ascii s) as [data|]; [| discriminate].
  destruct (a2b_loop data 0 0 0 []) as [d|] eqn:Hloop; [| discriminate].
  injection H as <-.
  apply (@a2b_loop_bytes data 0%N 0%N 0%N [] d); [reflexivity | exact Hloop].
Qed.

Lemma b64decode_gives_bytes_witness :
  is_bytes (lit "abc") = true.
Proof.
  apply (@b64decode_gives_bytes (lit "YW-Jj") (lit "abc")). reflexivity.
Defined.

Lemma length_three_more (A : Type) (x y z : A) (rest : list A) :
  List.length (x :: y :: z :: rest) mod 3 = List.length rest mod 3.
Proof.
  cbn [List.length].
  replace (S (S (S (List.length rest)))) with (List.length rest + 1 * 3) by lia.
  apply Nat.Div0.mod_add.
Qed.

Lemma a2b_loop_stops_at_pad (data junk : bytes) :
  is_bytes data = true ->
  List.length data mod 3 <> 0 ->
  forall leftchar pads out,
    a2b_loop (b64encode data ++ junk) 0 leftchar pads out = Some (out ++ data).
Proof.
  unfold is_bytes.
  induction data as [| x | x y | x y z rest IH] using list_ind3;
    intros Hdata Hlen leftchar pads out; cbn [forallb] in Hdata;
    repeat (apply andb_prop in Hdata; destruct Hdata as [?Hb Hdata]);
    repeat match goal with H : (_ <? 256)%N = true |- _ =>
             apply N.ltb_lt in H end.
  - now elim Hlen.
  - destruct (@first_byte x 0) as (Hv0 & Hv1 & Hx & _); [assumption | lia |].
    cbn [b64encode app].
    rewrite (a2b_loop_symbol _ _ _ _ _ Hv0), (a2b_loop_symbol _ _ _ _ _ Hv1).
    rewrite Hx. reflexivity.
  - destruct (@first_byte x y) as (Hv0 & Hv1 & Hx & Hl); [assumption .. |].
    destruct (@second_byte y 0) as (Hv2 & Hy & _); [assumption | lia |].
    cbn [b64encode app].
    rewrite (a2b_loop_symbol _ _ _ _ _ Hv0), (a2b_loop_symbol _ _ _ _ _ Hv1),
      (a2b_loop_symbol _ _ _ _ _ Hv2).
    rewrite Hx, Hl, Hy, <- app_assoc. reflexivity.
  - destruct (@first_byte x y) as (Hv0 & Hv1 & Hx & Hl); [assumption .. |].
    destruct (@second_byte y z) as (Hv2 & Hy & Hl'); [assumption .. |].
    destruct (@third_byte z) as (Hv3 & Hz); [assumption |].
    rewrite length_three_more in Hlen.
    cbn [b64encode app].
    rewrite (a2b_loop_symbol _ _ _ _ _ Hv0), (a2b_loop_symbol _ _ _ _ _ Hv1),
      (a2b_loop_symbol _ _ _ _ _ Hv2), (a2b_loop_symbol _ _ _ _ _ Hv3).
    rewrite Hx, Hl, Hy, Hl', Hz, IH by assumption.
    now rewrite <- !app_assoc.
Qed.

(** X7.  Decoding stops at a complete pad sequence: when the base64 text of some
    bytes ends in a pad (their number is no multiple of three), any ASCII
    text behind it is ignored, without an error, and the credential is
    just these bytes. *)
Theorem b64decode_ignores_text_behind_pad (data : bytes) (junk : str) :
  is_bytes data = true ->
  List.length data mod 3 <> 0 ->
  is_ascii junk = true ->
  b64decode (b64encode data ++ junk) = inr data.
Proof.
  intros Hdata Hlen Hjunk. unfold b64decode, a2b_base64.
  rewrite encode_ascii_ascii.
  - now rewrite a2b_loop_stops_at_pad.
  - pose proof (b64encode_ascii data) as Henc.
    unfold is_ascii in *. now rewrite forallb_app, Hjunk, Henc.
Qed.

Lemma b64decode_ignores_text_behind_pad_witness :
  b64decode (lit "YQ==YWJj") = inr (lit "a").
Proof.
  apply (@b64decode_ignores_text_behind_pad (lit "a") (lit "YWJj"));
    [reflexivity | | reflexivity].
  vm_compute. discriminate.
Defined.

Lemma a2b_loop_unpadded (data : bytes) :
  is_bytes data = true ->
  List.length data mod 3 <> 0 ->
  forall leftchar pads out,
    a2b_loop (filter (fun c => negb (c =? BASE64_PAD)%N) (b64encode data))
      0 leftchar pads out = None.
Proof.
  unfold is_bytes.
  induction data as [| x | x y | x y z rest IH] using list_ind3;
    intros Hdata Hlen leftchar pads out; cbn [forallb] in Hdata;
    repeat (apply andb_prop in Hdata; destruct Hdata as [?Hb Hdata]);
    repeat match goal with H : (_ <? 256)%N = true |- _ =>
             apply N.ltb_lt in H end.
  - now elim Hlen.
  - destruct (@first_byte x 0) as (Hv0 & Hv1 & _); [assumption | lia |].
    cbn [b64encode filter].
    rewrite (proj2 (alphabet_decodes Hv0)), (proj2 (alphabet_decodes Hv1)).
    cbn [negb]. replace (BASE64_PAD =? BASE64_PAD)%N with true by reflexivity.
    cbn [negb].
    rewrite (a2b_loop_symbol _ _ _ _ _ Hv0), (a2b_loop_symbol _ _ _ _ _ Hv1).
    reflexivity.
  - destruct (@first_byte x y) as (Hv0 & Hv1 & _); [assumption .. |].
    destruct (@second_byte y 0) as (Hv2 & _); [assumption | lia |].
    cbn [b64encode filter].
    rewrite (proj2 (alphabet_decodes Hv0)), (proj2 (alphabet_decodes Hv1)),
      (proj2 (alphabet_decodes Hv2)).
    cbn [negb]. replace (BASE64_PAD =? BASE64_PAD)%N with true by reflexivity.
    cbn [negb].
    rewrite (a2b_loop_symbol _ _ _ _ _ Hv0), (a2b_loop_symbol _ _ _ _ _ Hv1),
      (a2b_loop_symbol _ _ _ _ _ Hv2).
    reflexivity.
  - destruct (@first_byte x y) as (Hv0 & Hv1 & _); [assumption .. |].
    destruct (@second_byte y z) as (Hv2 & _); [assumption .. |].
    destruct (@third_byte z) as (Hv3 & _); [assumption |].
    rewrite length_three_more in Hlen.
    cbn [b64encode filter].
    rewrite (proj2 (alphabet_decodes Hv0)), (proj2 (alphabet_decodes Hv1)),
      (proj2 (alphabet_decodes Hv2)), (proj2 (alphabet_decodes Hv3)).
    cbn [negb].
    rewrite (a2b_loop_symbol _ _ _ _ _ Hv0), (a2b_loop_symbol _ _ _ _ _ Hv1),
      (a2b_loop_symbol _ _ _ _ _ Hv2), (a2b_loop_symbol _ _ _ _ _ Hv3).
    now apply IH.
Qed.

(** X8.  The pad is required: when the base64 text of some bytes ends in a pad
    and the credential is that text with the pad characters left off,
    decoding fails and the run of the scoped block is replaced by the
    diagnostic and exit code 1. *)
Theorem unpadded_credential_is_refused (os : Host) (A : Type) (wrkdir : str)
    (block : str -> M A) (w : World) (data : bytes) :
  is_bytes data = true ->
  List.length data mod 3 <> 0 ->
  credential os =
    filter (fun c => negb (c =? BASE64_PAD)%N) (b64encode data) ->
  b64decode (credential os) = inl BinasciiError /\
  load_kubeconfig os wrkdir block w =
    (SysExit 1%Z, with_stdout w (stdout w ++ [lit "Bad kubeconfig"])).
Proof.
  intros Hdata Hlen Hcred.
  assert (Hdec : b64decode (credential os) = inl BinasciiError).
  { rewrite Hcred. unfold b64decode, a2b_base64.
    rewrite encode_ascii_ascii
      by (apply is_ascii_filter, b64encode_ascii).
    now rewrite a2b_loop_unpadded. }
  split; [exact Hdec |]. now apply load_kubeconfig_bad with (e := BinasciiError).
Qed.

Lemma unpadded_credential_is_refused_witness :
  b64decode (credential (host_with [(lit "KUBECFGB64", lit "YQ")])) =
    inl BinasciiError.
Proof.
  destruct (@unpadded_credential_is_refused
              (host_with [(lit "KUBECFGB64", lit "YQ")]) Z (lit "/tmp/tmpw")
              (fun _ => ret 0%Z) empty_world (lit "a")) as (H & _);
    [reflexivity | vm_compute; discriminate | reflexivity |].
  exact H.
Defined.

End CredentialBytes.

(* ================================================================== *)
(** ** The command line (section 4.7) *)

Module CommandLine.
Import Py Eff Action Args Samples Vocabulary PyFacts Lifecycle.
Import Shlex.

Lemma plain_classes (c : char) :
  plain c = true ->
  is_whitespace c = false /\ is_quote c = false /\ (c =? ESCAPE)%N = false.
Proof.
  unfold plain. intros H.
  apply andb_prop in H. destruct H as [H H3].
  apply andb_prop in H. destruct H as [H1 H2].
  now rewrite !negb_true_iff in *.
Qed.

Lemma read_word (w : str) :
  forall rest token,
    plain_word w = true ->
    read (w ++ rest) Word token = read rest Word (token ++ w).
Proof.
  unfold plain_word.
  induction w as [|c w IH]; intros rest token H.
  - now rewrite app_nil_r.
  - simpl in H. apply andb_prop in H. destruct H as [Hc Hw].
    destruct (plain_classes _ Hc) as (H1 & H2 & H3).
    cbn [app read]. rewrite H1, H2, H3, IH by exact Hw.
    now rewrite <- app_assoc.
Qed.

Lemma read_last_word (w token : str) :
  plain_word w = true -> read w Word token = Some [token ++ w].
Proof.
  intros H. rewrite <- (app_nil_r w) at 1. now rewrite read_word.
Qed.

Lemma read_first (c : char) (rest token : str) :
  plain c = true -> read (c :: rest) Space token = read rest Word [c].
Proof.
  intros Hc. destruct (plain_classes _ Hc) as (H1 & H2 & H3).
  cbn [read]. now rewrite H1, H3, H2.
Qed.

(** What [shlex] makes of words joined with single spaces. *)
Lemma read_joined (words : list str) :
  Forall (fun w => plain_word w = true) words ->
  read (join_strs (lit " ") words) Space [] = Some (filter nonempty words).
Proof.
  induction 1 as [|x words Hx Hwords IH]; [reflexivity |].
  destruct words as [|y words].
  - cbn [join_strs filter]. destruct x as [|c x]; [reflexivity |].
    unfold plain_word in Hx. simpl in Hx.
    apply andb_prop in Hx. destruct Hx as [Hc Hx].
    rewrite read_first by exact Hc.
    now rewrite read_last_word.
  - change (join_strs (lit " ") (x :: y :: words))
      with (x ++ 32%N :: join_strs (lit " ") (y :: words)).
    cbn [filter]. destruct x as [|c x].
    + cbn [app read nonempty]. exact IH.
    + unfold plain_word in Hx. simpl in Hx.
      apply andb_prop in Hx. destruct Hx as [Hc Hx].
      cbn [app nonempty]. rewrite read_first by exact Hc.
      rewrite read_word by exact Hx.
      cbn [read]. change (is_whitespace 32%N) with true. cbv iota.
      rewrite IH. reflexivity.
Qed.

(** Joining and splitting again is no round trip in general: for words
    without whitespace, quotes and backslashes, [shlex.split] of the words
    joined with spaces gives the words back, but for the empty ones,
    which are lost. *)
Theorem split_of_joined_words (words : list str) :
  Forall (fun w => plain_word w = true) words ->
  Shlex.split (join_strs (lit " ") words) = Some (filter nonempty words).
Proof. apply read_joined. Qed.

Lemma split_of_joined_words_witness :
  Shlex.split (lit "helm install  c1 --namespace ") =
    Some [lit "helm"; lit "install"; lit "c1"; lit "--namespace"].
Proof.
  apply (@split_of_joined_words
           [lit "helm"; lit "install"; []; lit "c1"; lit "--namespace";
            []]).
  repeat constructor.
Defined.

Lemma all_strs_map_Some (items : list str) :
  all_strs (map Some items) = Some items.
Proof.
  induction items as [|x items IH]; [reflexivity |].
  simpl. now rewrite IH.
Qed.

Lemma all_strs_None (items : list (option str)) :
  all_strs items = None <-> In None items.
Proof.
  induction items as [|[x|] items IH]; simpl.
  - split; [discriminate | tauto].
  - destruct (all_strs items).
    + split; [discriminate |]. intros [H|H]; [discriminate |].
      now apply IH in H.
    + split; [| reflexivity]. intros _. right. now apply IH.
  - split; [now left | reflexivity].
Qed.

Lemma params_or_nil (params : list (option str)) :
  match params with p :: ps => p :: ps | [] => [] end = params.
Proof. now destruct params. Qed.

(** What [run_helm] does, by the point where it stops. *)
Lemma run_helm_cases (os : Host) cmd (params : list (option str)) env
    (w : World) :
  run_helm os cmd (Some params) env w =
  match join (lit " ") (Some (lit "helm") :: Some cmd :: params) with
  | None =>
      (Raised TypeError,
       mkWorld (stdout w) (fs w) (tmpdirs w)
         (helm_calls w ++ [(cmd, params)]) (spawned w))
  | Some line =>
      match shlex_split os line with
      | None =>
          (Raised ValueError,
           mkWorld (stdout w) (fs w) (tmpdirs w)
             (helm_calls w ++ [(cmd, params)]) (spawned w))
      | Some argv =>
          match child os argv (child_environ os env) with
          | None =>
              (Raised OSError,
               mkWorld (stdout w) (fs w) (tmpdirs w)
                 (helm_calls w ++ [(cmd, params)]) (spawned w))
          | Some returncode => (Ok returncode, with_call w cmd params argv)
          end
      end
  end.
Proof.
  unfold run_helm, bind, note_call, note_spawn, ret, raise, with_call.
  destruct params as [|p ps]; cbv beta iota zeta; cbn [helm_calls stdout fs
    tmpdirs spawned];
    (destruct (join _ _); [| reflexivity]);
    (destruct (shlex_split os _); [| reflexivity]);
    destruct (child os _ _); reflexivity.
Qed.

(** X9.  [run_helm] ends with [TypeError] exactly when one of its arguments is
    not set, and then nothing was split and no child was started. *)
Theorem run_helm_needs_every_argument (os : Host) cmd
    (params : list (option str)) env (w : World) :
  (In None params <->
   fst (run_helm os cmd (Some params) env w) = Raised TypeError) /\
  (In None params ->
   spawned (snd (run_helm os cmd (Some params) env w)) = spawned w).
Proof.
  rewrite run_helm_cases. unfold join. cbn [all_strs].
  destruct (all_strs params) as [strs|] eqn:E.
  - assert (Hno : ~ In None params).
    { intros H. apply all_strs_None in H. congruence. }
    split; [| tauto]. split; [tauto |].
    destruct (shlex_split os _); [| discriminate].
    destruct (child os _ _); discriminate.
  - apply all_strs_None in E. split; [tauto | reflexivity].
Qed.

Lemma run_helm_needs_every_argument_witness :
  fst (run_helm uninstall_without_release (lit "uninstall")
         (Some [None; Some (lit "--namespace"); Some (lit "ns1")]) []
         empty_world) = Raised TypeError.
Proof.
  apply (run_helm_needs_every_argument uninstall_without_release
           (lit "uninstall")
           [None; Some (lit "--namespace"); Some (lit "ns1")] [] empty_world).
  now left.
Defined.

(** X10.  On a host whose [shlex.split] is the one of the library, a
    command and arguments without whitespace, quotes and backslashes reach
    the child as they are, behind [helm], but for the empty ones, which
    are dropped; the child is started in the environment of the script
    with the keyword arguments on top, and [run_helm] returns its return
    code. *)
Theorem run_helm_passes_plain_arguments (os : Host) (cmd : str)
    (params : list str) env (w : World) (returncode : Z) :
  (forall line, shlex_split os line = Shlex.split line) ->
  plain_word cmd = true ->
  Forall (fun p => plain_word p = true) params ->
  child os (lit "helm" :: filter nonempty (cmd :: params))
    (child_environ os env) = Some returncode ->
  run_helm os cmd (Some (map Some params)) env w =
    (Ok returncode,
     with_call w cmd (map Some params)
       (lit "helm" :: filter nonempty (cmd :: params))).
Proof.
  intros Hshlex Hcmd Hparams Hchild.
  rewrite run_helm_cases. unfold join.
  change (Some (lit "helm") :: Some cmd :: map Some params)
    with (map Some (lit "helm" :: cmd :: params)).
  rewrite all_strs_map_Some, Hshlex, split_of_joined_words.
  - cbn [filter nonempty lit map list_ascii_of_string] in *.
    now rewrite Hchild.
  - repeat constructor; assumption.
Qed.

Lemma run_helm_passes_plain_arguments_witness :
  run_helm (host_shlex []) (lit "uninstall")
    (Some [Some ([]); Some (lit "--namespace"); Some (lit "ns1")]) []
    empty_world =
  (Ok 3%Z,
   with_call empty_world (lit "uninstall")
     [Some ([]); Some (lit "--namespace"); Some (lit "ns1")]
     [lit "helm"; lit "uninstall"; lit "--namespace"; lit "ns1"]).
Proof.
  apply (@run_helm_passes_plain_arguments (host_shlex []) (lit "uninstall")
           [[]; lit "--namespace"; lit "ns1"] [] empty_world 3%Z);
    try reflexivity.
  repeat constructor.
Defined.

End CommandLine.

(* ================================================================== *)
(** ** Repository registration (section 4.4) *)

Module Repository.
Import Py Eff Action Args Samples Vocabulary PyFacts Lifecycle CommandLine.
Local Open Scope eff_scope.

Lemma run_helm_no_params (os : Host) cmd env (w : World) :
  run_helm os cmd None env w = run_helm os cmd (Some []) env w.
Proof. reflexivity. Qed.

(** [load_repo] with a repository, when both children can be started. *)
Lemma load_repo_steps (os : Host) (inner : str -> Specs -> M unit)
    (wrkdir : str) (specs : Specs) (w : World) url argv_add argv_update
    code_add code_update :
  repo specs = Some url -> truthy (repo specs) = true ->
  shlex_split os
    (join_strs (lit " ")
       [lit "helm"; lit "repo add --force-update";
        or_str (repo_name specs) (lit "charts"); url])
    = Some argv_add ->
  child os argv_add (child_environ os []) = Some code_add ->
  shlex_split os (lit "helm repo update") = Some argv_update ->
  child os argv_update (child_environ os []) = Some code_update ->
  load_repo os inner wrkdir specs w =
    inner wrkdir specs
      (with_call
         (with_call w (lit "repo add --force-update")
            [Some (or_str (repo_name specs) (lit "charts")); Some url]
            argv_add)
         (lit "repo update") [] argv_update).
Proof.
  intros Hurl Hrepo Hsplit1 Hchild1 Hsplit2 Hchild2.
  unfold load_repo. rewrite Hrepo, Hurl.
  erewrite bind_ok; [reflexivity |].
  erewrite bind_ok.
  2:{ rewrite run_helm_cases. unfold join. cbn [all_strs].
      rewrite Hsplit1, Hchild1. reflexivity. }
  erewrite bind_ok.
  2:{ rewrite run_helm_no_params, run_helm_cases. unfold join.
      cbn [all_strs].
      change (join_strs (lit " ") [lit "helm"; lit "repo update"])
        with (lit "helm repo update").
      rewrite Hsplit2, Hchild2. reflexivity. }
  reflexivity.
Qed.

(** X11.  [load_repo] goes straight to the wrapped operation when no repository
    is configured.  With a repository it runs [helm repo add
    --force-update] with the repository name, or [charts] when there is
    none, and the URL, then [helm repo update], and then the wrapped
    operation, whatever the two return codes are.  When the first child
    cannot be started the exception ends [load_repo] and the wrapped
    operation does not run. *)
Theorem load_repo_registers_first (os : Host)
    (inner : str -> Specs -> M unit) (wrkdir : str) (specs : Specs)
    (w : World) :
  (truthy (repo specs) = false ->
   load_repo os inner wrkdir specs w = inner wrkdir specs w) /\
  (forall url argv_add argv_update code_add code_update,
     repo specs = Some url -> truthy (repo specs) = true ->
     let name := or_str (repo_name specs) (lit "charts") in
     shlex_split os
       (join_strs (lit " ")
          [lit "helm"; lit "repo add --force-update"; name; url])
       = Some argv_add ->
     child os argv_add (child_environ os []) = Some code_add ->
     shlex_split os (lit "helm repo update") = Some argv_update ->
     child os argv_update (child_environ os []) = Some code_update ->
     load_repo os inner wrkdir specs w =
       inner wrkdir specs
         (with_call
            (with_call w (lit "repo add --force-update")
               [Some name; Some url] argv_add)
            (lit "repo update") [] argv_update)) /\
  (forall url argv_add,
     repo specs = Some url -> truthy (repo specs) = true ->
     let name := or_str (repo_name specs) (lit "charts") in
     shlex_split os
       (join_strs (lit " ")
          [lit "helm"; lit "repo add --force-update"; name; url])
       = Some argv_add ->
     child os argv_add (child_environ os []) = None ->
     fst (load_repo os inner wrkdir specs w) = Raised OSError /\
     spawned (snd (load_repo os inner wrkdir specs w)) = spawned w).
Proof.
  split; [| split].
  - intros H. unfold load_repo. rewrite H. reflexivity.
  - intros url argv_add argv_update code_add code_update Hurl Hrepo name
      Hsplit1 Hchild1 Hsplit2 Hchild2.
    now apply load_repo_steps with (code_add := code_add)
                                   (code_update := code_update).
  - intros url argv_add Hurl Hrepo name Hsplit1 Hchild1.
    unfold load_repo. rewrite Hrepo, Hurl. fold name.
    erewrite bind_raised.
    2:{ erewrite bind_raised; [reflexivity |].
        rewrite run_helm_cases. unfold join. cbn [all_strs].
        rewrite Hsplit1, Hchild1. reflexivity. }
    split; reflexivity.
Qed.

Lemma load_repo_registers_first_witness :
  load_repo install_from_repo (fun _ _ => ret tt) (lit "/tmp/tmpw")
    (load_inputs install_from_repo) empty_world =
  (Ok tt,
   with_call
     (with_call empty_world (lit "repo add --force-update")
        [Some (lit "charts"); Some (lit "https://example.org/charts")]
        [lit "helm"; lit "repo"; lit "add"; lit "--force-update";
         lit "charts"; lit "https://example.org/charts"])
     (lit "repo update") [] [lit "helm"; lit "repo"; lit "update"]).
Proof.
  destruct (load_repo_registers_first install_from_repo (fun _ _ => ret tt)
              (lit "/tmp/tmpw") (load_inputs install_from_repo) empty_world)
    as (_ & H & _).
  apply (H (lit "https://example.org/charts") _ _ 3%Z 3%Z); reflexivity.
Defined.

End Repository.

(* ================================================================== *)
(** ** Whole runs *)

Module Runs.
Import Py Eff Action Args Samples Vocabulary PyFacts Files Lifecycle
  InlineValues InlineValuesFile CommandLine.
Local Open Scope eff_scope.

Lemma paths_differ (wrkdir : str) : values_yaml wrkdir <> kube_config wrkdir.
Proof.
  unfold values_yaml, kube_config, path_join. intros H.
  apply app_inv_head in H. discriminate H.
Qed.

Lemma load_values_pair (os : Host) (wrkdir : str) (specs : Specs)
    (w : World) :
  values_writable os specs = true ->
  load_values os wrkdir specs w =
    (Ok (values_target wrkdir specs), snd (load_values os wrkdir specs w)).
Proof.
  rewrite load_values_spec. unfold values_target, values_writable.
  destruct (values specs) as [[|c text]|]; try reflexivity.
  now intros ->.
Qed.

Lemma load_values_raises (os : Host) (wrkdir : str) (specs : Specs)
    (w : World) :
  values_writable os specs = false ->
  load_values os wrkdir specs w =
    (Raised UnicodeEncodeError, snd (load_values os wrkdir specs w)) /\
  fs_read (values_yaml wrkdir) (fs (snd (load_values os wrkdir specs w)))
    = Some [].
Proof.
  rewrite load_values_spec. unfold values_writable.
  destruct (values specs) as [[|c text]|]; try discriminate.
  intros ->. cbn [snd fs fs_read]. fold (values_yaml wrkdir).
  now rewrite str_eqb_refl.
Qed.

Lemma load_values_world (os : Host) (wrkdir : str) (specs : Specs)
    (w : World) :
  let w' := snd (load_values os wrkdir specs w) in
  stdout w' = stdout w /\ tmpdirs w' = tmpdirs w /\
  helm_calls w' = helm_calls w /\ spawned w' = spawned w /\
  fs_read (kube_config wrkdir) (fs w') = fs_read (kube_config wrkdir) (fs w) /\
  (values_writable os specs = true ->
   forall text, values specs = Some text -> truthy (values specs) = true ->
     fs_read (values_yaml wrkdir) (fs w') = Some text).
Proof.
  assert (Hkube : forall content files,
            fs_read (kube_config wrkdir)
              ((values_yaml wrkdir, content)
                 :: fs_remove (values_yaml wrkdir) files) =
            fs_read (kube_config wrkdir) files).
  { intros content files. cbn [fs_read].
    destruct (str_eqb (values_yaml wrkdir) (kube_config wrkdir)) eqn:E.
    - apply str_eqb_eq in E. now apply paths_differ in E.
    - apply fs_read_remove_other. intros H. symmetry in H.
      now apply paths_differ in H. }
  rewrite load_values_spec. unfold values_writable.
  destruct (values specs) as [[|c text]|]; cbn [snd].
  1, 3: repeat split; trivial; intros _ text H; discriminate.
  fold (values_yaml wrkdir).
  destruct (file_encodes os (c :: text));
    cbn [snd stdout tmpdirs helm_calls spawned fs]; repeat split; trivial;
    try discriminate.
  intros _ t Ht _. injection Ht as <-. cbn [fs_read].
  now rewrite str_eqb_refl.
Qed.

(** [wrap_helm] when the credential decodes and helm runs. *)
Lemma wrap_helm_runs (os : Host) wrkdir cmd (params : list (option str))
    (strs : list str) (w : World) decoded argv returncode :
  b64decode (credential os) = inr decoded ->
  params = map Some strs ->
  shlex_split os (join_strs (lit " ") (lit "helm" :: cmd :: strs))
    = Some argv ->
  child os argv
    (child_environ os [(lit "KUBECONFIG", kube_config wrkdir)]) = Some returncode ->
  wrap_helm os wrkdir cmd (Some params) true w =
    (SysExit returncode,
     mkWorld (stdout w) (fs_remove (kube_config wrkdir) (fs w)) (tmpdirs w)
       (helm_calls w ++ [(cmd, params)]) (spawned w ++ [argv])).
Proof.
  intros Hdec -> Hsplit Hchild. unfold wrap_helm.
  erewrite bind_ok; [reflexivity |].
  rewrite (load_kubeconfig_good _ _ _ _ Hdec). unfold scoped.
  erewrite bind_ok by reflexivity.
  erewrite bind_ok.
  2:{ rewrite run_helm_cases. unfold join.
      change (Some (lit "helm") :: Some cmd :: map Some strs)
        with (map Some (lit "helm" :: cmd :: strs)).
      rewrite all_strs_map_Some, Hsplit. fold (kube_config wrkdir).
      rewrite Hchild. reflexivity. }
  erewrite bind_ok.
  2:{ unfold unlink, with_call. cbn [fs fs_exists].
      fold (kube_config wrkdir). rewrite str_eqb_refl. reflexivity. }
  unfold ret, with_call. cbn [fs stdout tmpdirs helm_calls spawned fs_remove].
  fold (kube_config wrkdir).
  now rewrite str_eqb_refl, fs_remove_twice.
Qed.

(** The world in which an operation reaches [wrap_helm]: the working
    directory is made, and install and upgrade have written the inline
    values. *)
Lemma dispatch (os : Host) (op : Operation) :
  mode (load_inputs os) = Some (op_name op) ->
  forall w,
    run os w =
    match op with
    | Install => helm_install os
    | Upgrade => helm_upgrade os
    | Uninstall => helm_uninstall os
    | Template => helm_template os
    end (mkdtemp os) (load_inputs os)
      (mkWorld (stdout w) (fs w) (tmpdirs w ++ [mkdtemp os])
         (helm_calls w) (spawned w)).
Proof.
  intros Hmode w. unfold run. rewrite Hmode.
  destruct op;
    match goal with
    | |- context [dict_get ?d ?k] =>
        match goal with
        | |- _ = ?f _ _ _ => change (dict_get d k) with (Some f)
        end
    end; cbv iota; now erewrite bind_ok by reflexivity.
Qed.

(** Inline values, then [wrap_helm], from any world: when helm runs, and
    when the credential does not decode. *)
Lemma deploy_step (os : Host) (wrkdir : str) (specs : Specs) (cmd : str)
    (params : option str -> list (option str)) (strs : list str)
    (w : World) decoded argv returncode :
  values_writable os specs = true ->
  b64decode (credential os) = inr decoded ->
  params (values_target wrkdir specs) = map Some strs ->
  shlex_split os (join_strs (lit " ") (lit "helm" :: cmd :: strs))
    = Some argv ->
  child os argv
    (child_environ os [(lit "KUBECONFIG", kube_config wrkdir)]) = Some returncode ->
  (values_target <- load_values os wrkdir specs ;;
   wrap_helm os wrkdir cmd (Some (params values_target)) true) w =
  (SysExit returncode,
   mkWorld (stdout w)
     (fs_remove (kube_config wrkdir)
        (fs (snd (load_values os wrkdir specs w))))
     (tmpdirs w)
     (helm_calls w ++ [(cmd, map Some strs)])
     (spawned w ++ [argv])).
Proof.
  intros Hwritable Hdec Hparams Hsplit Hchild.
  erewrite bind_ok by (now apply load_values_pair). rewrite Hparams.
  destruct (load_values_world os wrkdir specs w)
    as (Hout & Htmp & Hcalls & Hspawned & _).
  erewrite wrap_helm_runs; try eassumption; trivial.
  now rewrite Hout, Htmp, Hcalls, Hspawned.
Qed.

Lemma wrap_helm_refused (os : Host) wrkdir cmd params exit (w : World) e :
  b64decode (credential os) = inl e ->
  wrap_helm os wrkdir cmd params exit w =
    (SysExit 1%Z, with_stdout w (stdout w ++ [lit "Bad kubeconfig"])).
Proof.
  intros Hdec. unfold wrap_helm.
  apply bind_exit. now apply load_kubeconfig_bad with (e := e).
Qed.

Lemma refused_step (os : Host) (wrkdir : str) (specs : Specs) (cmd : str)
    (params : option str -> option (list (option str))) (w : World) e :
  values_writable os specs = true ->
  b64decode (credential os) = inl e ->
  (values_target <- load_values os wrkdir specs ;;
   wrap_helm os wrkdir cmd (params values_target) true) w =
  (SysExit 1%Z,
   with_stdout (snd (load_values os wrkdir specs w))
     (stdout w ++ [lit "Bad kubeconfig"])).
Proof.
  intros Hwritable Hdec.
  erewrite bind_ok by (now apply load_values_pair).
  rewrite (wrap_helm_refused _ _ _ _ _ _ Hdec).
  destruct (load_values_world os wrkdir specs w) as (Hout & _).
  now rewrite Hout.
Qed.

(** X12.  When helm runs, the run ends with its return code.  For install,
    upgrade (both without a repository, and with inline values the
    encoding of text files can take, or none) and uninstall, with a
    credential that decodes, every argument set, and a child that can be
    started: the exit code of the run is the return code of the child; the
    script prints nothing; the one call of helm is the operation with its
    argument list, its child started in the environment of the script
    with [KUBECONFIG] set to the credential file; the working directory
    is made once; the credential file is gone; and the inline values
    written by install and upgrade are still in [values.yaml]. *)
Theorem deploy_ends_with_return_code (os : Host) (w : World)
    (op : Operation) (strs : list str) (argv : list str) (decoded : bytes)
    (returncode : Z) :
  op <> Template ->
  mode (load_inputs os) = Some (op_name op) ->
  (op = Uninstall \/ truthy (repo (load_inputs os)) = false) ->
  (op = Uninstall \/ values_writable os (load_inputs os) = true) ->
  b64decode (credential os) = inr decoded ->
  args op (mkdtemp os) (load_inputs os) = map Some strs ->
  shlex_split os (join_strs (lit " ") (lit "helm" :: op_name op :: strs))
    = Some argv ->
  child os argv
    (child_environ os [(lit "KUBECONFIG", kube_config (mkdtemp os))])
    = Some returncode ->
  exists w',
    run os w = (SysExit returncode, w') /\
    stdout w' = stdout w /\
    tmpdirs w' = tmpdirs w ++ [mkdtemp os] /\
    helm_calls w' =
      helm_calls w ++ [(op_name op, args op (mkdtemp os) (load_inputs os))] /\
    spawned w' = spawned w ++ [argv] /\
    fs_exists (kube_config (mkdtemp os)) (fs w') = false /\
    (op <> Uninstall ->
     forall text, values (load_inputs os) = Some text ->
       truthy (values (load_inputs os)) = true ->
       fs_read (values_yaml (mkdtemp os)) (fs w') = Some text).
Proof.
  intros Hop Hmode Hrepo Hwritable Hdec Hargs Hsplit Hchild.
  rewrite (dispatch _ _ Hmode).
  set (specs := load_inputs os) in *. set (wrkdir := mkdtemp os) in *.
  set (w1 := mkWorld (stdout w) (fs w) (tmpdirs w ++ [wrkdir])
               (helm_calls w) (spawned w)).
  assert (Hdeploy :
    values_writable os specs = true ->
    forall cmd (params : option str -> list (option str)),
      cmd = op_name op ->
      params (values_target wrkdir specs) = args op wrkdir specs ->
      (values_target <- load_values os wrkdir specs ;;
       wrap_helm os wrkdir cmd (Some (params values_target)) true) w1 =
      (SysExit returncode,
       mkWorld (stdout w) (fs_remove (kube_config wrkdir)
                             (fs (snd (load_values os wrkdir specs w1))))
         (tmpdirs w ++ [wrkdir])
         (helm_calls w ++ [(cmd, args op wrkdir specs)])
         (spawned w ++ [argv]))).
  { intros Hw cmd params -> Hparams. rewrite Hargs in *.
    now erewrite deploy_step by eassumption. }
  assert (Hvalues :
    values_writable os specs = true ->
    forall text, values specs = Some text -> truthy (values specs) = true ->
      fs_read (values_yaml wrkdir)
        (fs_remove (kube_config wrkdir)
           (fs (snd (load_values os wrkdir specs w1)))) = Some text).
  { intros Hw text Ht Htruthy.
    rewrite fs_read_remove_other by apply paths_differ.
    now apply (load_values_world os wrkdir specs w1). }
  destruct op; try congruence.
  - destruct Hrepo as [Hrepo|Hrepo]; [discriminate |].
    destruct Hwritable as [Hw|Hw]; [discriminate |].
    specialize (Hdeploy Hw). specialize (Hvalues Hw).
    unfold helm_install, load_repo. rewrite Hrepo.
    erewrite bind_ok by reflexivity.
    eexists. split; [now apply Hdeploy |].
    cbn [stdout tmpdirs helm_calls spawned fs].
    repeat split; trivial; first [apply fs_exists_remove | now apply Hvalues].
  - destruct Hrepo as [Hrepo|Hrepo]; [discriminate |].
    destruct Hwritable as [Hw|Hw]; [discriminate |].
    specialize (Hdeploy Hw). specialize (Hvalues Hw).
    unfold helm_upgrade, load_repo. rewrite Hrepo.
    erewrite bind_ok by reflexivity.
    eexists. split; [now apply Hdeploy |].
    cbn [stdout tmpdirs helm_calls spawned fs].
    repeat split; trivial; first [apply fs_exists_remove | now apply Hvalues].
  - unfold helm_uninstall.
    erewrite wrap_helm_runs; try eassumption.
    eexists. split; [reflexivity |].
    cbn [stdout tmpdirs helm_calls spawned fs].
    repeat split; trivial; [apply fs_exists_remove | congruence].
Qed.

Lemma deploy_ends_with_return_code_witness :
  exists w',
    run install_atomic empty_world = (SysExit 3%Z, w') /\
    helm_calls w' =
      [(lit "install",
        [Some (lit "r1"); Some (lit "c1"); Some (lit "--namespace");
         Some (lit "ns1"); Some (lit "--atomic")])] /\
    fs w' = [].
Proof.
  destruct (@deploy_ends_with_return_code install_atomic empty_world Install
              [lit "r1"; lit "c1"; lit "--namespace"; lit "ns1";
               lit "--atomic"]
              [lit "helm"; lit "install"; lit "r1"; lit "c1";
               lit "--namespace"; lit "ns1"; lit "--atomic"]
              (lit "abc") 3%Z)
    as (w' & Hrun & _ & _ & Hcalls & _); try reflexivity.
  - discriminate.
  - now right.
  - now right.
  - exists w'. repeat split; trivial.
    assert (E : w' = snd (run install_atomic empty_world)) by now rewrite Hrun.
    rewrite E. reflexivity.
Defined.

(** X13.  A credential that does not decode stops install, upgrade (both
    without a repository, and with inline values the encoding of text
    files can take, or none) and uninstall before helm is called: the run
    prints [Bad kubeconfig] and exits with code 1, no call of helm is made
    and no child started.  The working directory is made all the same,
    and install and upgrade have written the inline values by then. *)
Theorem bad_credential_stops_deploy (os : Host) (w : World)
    (op : Operation) (e : Exn) :
  op <> Template ->
  mode (load_inputs os) = Some (op_name op) ->
  (op = Uninstall \/ truthy (repo (load_inputs os)) = false) ->
  (op = Uninstall \/ values_writable os (load_inputs os) = true) ->
  b64decode (credential os) = inl e ->
  exists w',
    run os w = (SysExit 1%Z, w') /\
    stdout w' = stdout w ++ [lit "Bad kubeconfig"] /\
    tmpdirs w' = tmpdirs w ++ [mkdtemp os] /\
    helm_calls w' = helm_calls w /\
    spawned w' = spawned w /\
    fs_read (kube_config (mkdtemp os)) (fs w')
      = fs_read (kube_config (mkdtemp os)) (fs w) /\
    (op <> Uninstall ->
     forall text, values (load_inputs os) = Some text ->
       truthy (values (load_inputs os)) = true ->
       fs_read (values_yaml (mkdtemp os)) (fs w') = Some text).
Proof.
  intros Hop Hmode Hrepo Hwritable Hdec.
  rewrite (dispatch _ _ Hmode).
  set (specs := load_inputs os) in *. set (wrkdir := mkdtemp os) in *.
  set (w1 := mkWorld (stdout w) (fs w) (tmpdirs w ++ [wrkdir])
               (helm_calls w) (spawned w)).
  assert (Hwrap : forall cmd params w0,
            wrap_helm os wrkdir cmd params true w0 =
            (SysExit 1%Z,
             with_stdout w0 (stdout w0 ++ [lit "Bad kubeconfig"])))
    by (intros; now apply wrap_helm_refused with (e := e)).
  assert (Hdeploy :
    values_writable os specs = true ->
    forall cmd params,
      (values_target <- load_values os wrkdir specs ;;
       wrap_helm os wrkdir cmd (params values_target) true) w1 =
      (SysExit 1%Z,
       with_stdout (snd (load_values os wrkdir specs w1))
         (stdout w ++ [lit "Bad kubeconfig"])))
    by (intros Hw cmd params;
        now rewrite (@refused_step os wrkdir specs cmd params w1 e Hw Hdec)).
  destruct (load_values_world os wrkdir specs w1)
    as (_ & Htmp & Hcalls & Hspawned & Hkube & Hvalues).
  destruct op; try congruence.
  - destruct Hrepo as [Hrepo|Hrepo]; [discriminate |].
    destruct Hwritable as [Hw|Hw]; [discriminate |].
    specialize (Hdeploy Hw). specialize (Hvalues Hw).
    unfold helm_install, load_repo. rewrite Hrepo.
    erewrite bind_ok by reflexivity.
    eexists. split; [now apply Hdeploy |].
    cbn [with_stdout stdout tmpdirs helm_calls spawned fs].
    repeat split; trivial; now apply Hvalues.
  - destruct Hrepo as [Hrepo|Hrepo]; [discriminate |].
    destruct Hwritable as [Hw|Hw]; [discriminate |].
    specialize (Hdeploy Hw). specialize (Hvalues Hw).
    unfold helm_upgrade, load_repo. rewrite Hrepo.
    erewrite bind_ok by reflexivity.
    eexists. split; [now apply Hdeploy |].
    cbn [with_stdout stdout tmpdirs helm_calls spawned fs].
    repeat split; trivial; now apply Hvalues.
  - unfold helm_uninstall. rewrite Hwrap.
    eexists. split; [reflexivity |].
    cbn [with_stdout stdout tmpdirs helm_calls spawned fs].
    repeat split; trivial. congruence.
Qed.

Lemma bad_credential_stops_deploy_witness :
  exists w',
    run install_bad_credential empty_world = (SysExit 1%Z, w') /\
    spawned w' = [] /\
    fs_read (lit "/tmp/tmpw/values.yaml") (fs w') = Some (lit "a: 1").
Proof.
  destruct (@bad_credential_stops_deploy install_bad_credential empty_world
              Install BinasciiError)
    as (w' & Hrun & _ & _ & _ & Hspawned & _ & Hvalues); try reflexivity.
  - discriminate.
  - now right.
  - now right.
  - exists w'. repeat split; trivial.
    apply Hvalues; [discriminate | reflexivity | reflexivity].
Defined.

(** X21.  Inline values the encoding of text files cannot take (a code
    point U+DCFF, which is what [os.environ] makes of a byte FF, with
    UTF-8) stop install, upgrade and template before the credential is
    looked at: without a repository the run ends with
    [UnicodeEncodeError], the script prints nothing, helm is not called
    and no child is started, no credential file is written, and
    [values.yaml] is left behind empty in the working directory. *)
Theorem unwritable_values_stop_the_run (os : Host) (w : World)
    (op : Operation) :
  op <> Uninstall ->
  mode (load_inputs os) = Some (op_name op) ->
  truthy (repo (load_inputs os)) = false ->
  values_writable os (load_inputs os) = false ->
  exists w',
    run os w = (Raised UnicodeEncodeError, w') /\
    stdout w' = stdout w /\
    tmpdirs w' = tmpdirs w ++ [mkdtemp os] /\
    helm_calls w' = helm_calls w /\
    spawned w' = spawned w /\
    fs_read (kube_config (mkdtemp os)) (fs w')
      = fs_read (kube_config (mkdtemp os)) (fs w) /\
    fs_read (values_yaml (mkdtemp os)) (fs w') = Some [].
Proof.
  intros Hop Hmode Hrepo Hwritable.
  rewrite (dispatch _ _ Hmode).
  set (specs := load_inputs os) in *. set (wrkdir := mkdtemp os) in *.
  set (w1 := mkWorld (stdout w) (fs w) (tmpdirs w ++ [wrkdir])
               (helm_calls w) (spawned w)).
  destruct (load_values_raises os wrkdir specs w1 Hwritable)
    as (Hraises & Hvalues).
  destruct (load_values_world os wrkdir specs w1)
    as (Hout & Htmp & Hcalls & Hspawned & Hkube & _).
  exists (snd (load_values os wrkdir specs w1)).
  split; [| now repeat split].
  destruct op; try congruence.
  - unfold helm_install, load_repo. rewrite Hrepo.
    erewrite bind_ok by reflexivity. now apply bind_raised.
  - unfold helm_upgrade, load_repo. rewrite Hrepo.
    erewrite bind_ok by reflexivity. now apply bind_raised.
  - unfold helm_template, load_repo. rewrite Hrepo.
    erewrite bind_ok by reflexivity. now apply bind_raised.
Qed.

Lemma unwritable_values_stop_the_run_witness :
  exists w',
    run install_values_not_utf8 empty_world = (Raised UnicodeEncodeError, w') /\
    spawned w' = [] /\
    fs w' = [(lit "/tmp/tmpw/values.yaml", [])].
Proof.
  destruct (@unwritable_values_stop_the_run install_values_not_utf8
              empty_world Install)
    as (w' & Hrun & _ & _ & _ & Hspawned & _); try reflexivity.
  - discriminate.
  - exists w'. repeat split; trivial.
    assert (E : w' = snd (run install_values_not_utf8 empty_world))
      by now rewrite Hrun.
    rewrite E. reflexivity.
Defined.

End Runs.

(* ================================================================== *)
(** ** Variables of the environment the run does not read *)

Module Environment.
Import Py Eff Action Args Samples Vocabulary PyFacts.
Local Open Scope eff_scope.

Lemma bind_ext (A B : Type) (m m' : M A) (k k' : A -> M B) (w : World) :
  m w = m' w -> (forall a w1, k a w1 = k' a w1) ->
  bind m k w = bind m' k' w.
Proof.
  intros Hm Hk. unfold bind. rewrite Hm.
  destruct (m' w) as [[a|code|e] w1]; trivial.
Qed.

Lemma child_environ_with_variable (os : Host) (variable : str)
    (value : option str) (env : list (str * str)) (name : str) :
  name <> variable ->
  child_environ (with_variable os variable value) env name =
  child_environ os env name.
Proof.
  intros Hname. unfold child_environ.
  destruct (kwargs_get env name); [reflexivity |].
  cbn [environ with_variable].
  destruct (str_eqb name variable) eqn:E; [| reflexivity].
  apply str_eqb_eq in E. contradiction.
Qed.

Lemma run_helm_with_variable (os : Host) (variable : str)
    (value : option str) cmd params env (w : World) :
  child_ignores os variable ->
  run_helm (with_variable os variable value) cmd params env w =
  run_helm os cmd params env w.
Proof.
  intros Hchild. unfold run_helm.
  apply bind_ext; [reflexivity | intros _ w1].
  apply bind_ext; [reflexivity | intros helm_cmd w2].
  apply bind_ext; [reflexivity | intros argv w3].
  cbn [child with_variable].
  rewrite (Hchild argv (child_environ (with_variable os variable value) env)
             (child_environ os env)); [reflexivity |].
  intros name. apply child_environ_with_variable.
Qed.

Lemma load_repo_with_variable (os : Host) (variable : str)
    (value : option str) (inner inner' : str -> Specs -> M unit)
    wrkdir specs (w : World) :
  child_ignores os variable ->
  (forall w1, inner' wrkdir specs w1 = inner wrkdir specs w1) ->
  load_repo (with_variable os variable value) inner' wrkdir specs w =
  load_repo os inner wrkdir specs w.
Proof.
  intros Hchild Hinner. unfold load_repo.
  apply bind_ext; [| intros _ w1; apply Hinner].
  destruct (truthy (repo specs)); [| reflexivity].
  apply bind_ext; [now apply run_helm_with_variable | intros _ w1].
  apply bind_ext; [now apply run_helm_with_variable | reflexivity].
Qed.

Lemma wrap_helm_with_variable (os : Host) (variable : str)
    (value : option str) wrkdir cmd params exit (w : World) :
  child_ignores os variable ->
  variable <> lit "KUBECFGB64" ->
  wrap_helm (with_variable os variable value) wrkdir cmd params exit w =
  wrap_helm os wrkdir cmd params exit w.
Proof.
  intros Hchild Hvariable. unfold wrap_helm.
  apply bind_ext; [| reflexivity].
  unfold load_kubeconfig. cbn [environ with_variable].
  destruct (str_eqb (lit "KUBECFGB64") variable) eqn:E;
    [apply str_eqb_eq in E; congruence |].
  apply bind_ext; [reflexivity | intros decoded w1].
  apply bind_ext; [reflexivity | intros _ w2].
  apply bind_ext; [now apply run_helm_with_variable | reflexivity].
Qed.

(** Rendering reads no credential: on a host whose children do not look
    at [variable], [helm_template] does the same with any value of it. *)
Lemma helm_template_with_variable (os : Host) (variable : str)
    (value : option str) wrkdir specs (w : World) :
  child_ignores os variable ->
  helm_template (with_variable os variable value) wrkdir specs w =
  helm_template os wrkdir specs w.
Proof.
  intros Hchild. unfold helm_template.
  apply load_repo_with_variable; [exact Hchild | intros w1].
  apply bind_ext; [reflexivity | intros values_target w2].
  apply bind_ext; [now apply run_helm_with_variable | reflexivity].
Qed.

(** The other three operations read the credential, and no other
    variable. *)
Lemma operations_with_variable (os : Host) (variable : str)
    (value : option str) wrkdir specs (w : World) :
  child_ignores os variable ->
  variable <> lit "KUBECFGB64" ->
  helm_install (with_variable os variable value) wrkdir specs w =
    helm_install os wrkdir specs w /\
  helm_upgrade (with_variable os variable value) wrkdir specs w =
    helm_upgrade os wrkdir specs w /\
  helm_uninstall (with_variable os variable value) wrkdir specs w =
    helm_uninstall os wrkdir specs w.
Proof.
  intros Hchild Hvariable. split; [| split].
  - unfold helm_install.
    apply load_repo_with_variable; [exact Hchild | intros w1].
    apply bind_ext; [reflexivity | intros values_target w2].
    now apply wrap_helm_with_variable.
  - unfold helm_upgrade.
    apply load_repo_with_variable; [exact Hchild | intros w1].
    apply bind_ext; [reflexivity | intros values_target w2].
    now apply wrap_helm_with_variable.
  - unfold helm_uninstall. now apply wrap_helm_with_variable.
Qed.

End Environment.

(* ================================================================== *)
(** ** Rendering, and what a run prints *)

Module Rendering.
Import Py Eff Action Args Samples Vocabulary PyFacts Files Lifecycle
  InlineValues InlineValuesFile CommandLine Runs Environment.
Local Open Scope eff_scope.

(** X14.  In mode [template] the run ends with the return code of [helm
    template], whatever the credential is, even none or one that does not
    decode.  Without a repository, with inline values the encoding of
    text files can take (or none), every argument set and a child that
    can be started: the script prints nothing, the one call of helm is
    [template] with its argument list, its child is started in the
    environment of the script with nothing added to it (every variable,
    [KUBECONFIG] too, is for the child what it is for the script), and
    the credential file is neither written nor removed. *)
Theorem template_ends_with_return_code (os : Host) (w : World)
    (strs : list str) (argv : list str) (returncode : Z) :
  mode (load_inputs os) = Some (lit "template") ->
  truthy (repo (load_inputs os)) = false ->
  values_writable os (load_inputs os) = true ->
  args Template (mkdtemp os) (load_inputs os) = map Some strs ->
  shlex_split os (join_strs (lit " ") (lit "helm" :: lit "template" :: strs))
    = Some argv ->
  child os argv (child_environ os []) = Some returncode ->
  (forall name, child_environ os [] name = environ os name) /\
  exists w',
    run os w = (SysExit returncode, w') /\
    stdout w' = stdout w /\
    tmpdirs w' = tmpdirs w ++ [mkdtemp os] /\
    helm_calls w' =
      helm_calls w
        ++ [(lit "template", args Template (mkdtemp os) (load_inputs os))] /\
    spawned w' = spawned w ++ [argv] /\
    fs_read (kube_config (mkdtemp os)) (fs w')
      = fs_read (kube_config (mkdtemp os)) (fs w).
Proof.
  intros Hmode Hrepo Hwritable Hargs Hsplit Hchild.
  split; [reflexivity |].
  rewrite (dispatch os Template Hmode).
  set (specs := load_inputs os) in *. set (wrkdir := mkdtemp os) in *.
  set (w1 := mkWorld (stdout w) (fs w) (tmpdirs w ++ [wrkdir])
               (helm_calls w) (spawned w)).
  unfold helm_template, load_repo. rewrite Hrepo.
  erewrite bind_ok by reflexivity.
  erewrite bind_ok by (now apply load_values_pair).
  destruct (load_values_world os wrkdir specs w1)
    as (Hout & Htmp & Hcalls & Hspawned & Hkube & _).
  erewrite bind_ok.
  2:{ rewrite run_helm_cases.
      change (helm_template_params specs (load_chart specs)
                (values_target wrkdir specs) (load_values_files specs))
        with (args Template wrkdir specs).
      rewrite Hargs. unfold join.
      change (Some (lit "helm") :: Some (lit "template") :: map Some strs)
        with (map Some (lit "helm" :: lit "template" :: strs)).
      rewrite all_strs_map_Some, Hsplit, Hchild. reflexivity. }
  eexists. split; [reflexivity |].
  unfold with_call. cbn [stdout tmpdirs helm_calls spawned fs].
  rewrite Hout, Htmp, Hcalls, Hspawned, Hkube, <- Hargs.
  repeat split; reflexivity.
Qed.

Lemma template_ends_with_return_code_witness :
  exists w',
    run template_bad_credential empty_world = (SysExit 3%Z, w') /\
    stdout w' = [] /\ fs w' = [].
Proof.
  destruct (@template_ends_with_return_code template_bad_credential
              empty_world
              [lit "r1"; lit "c1"; lit "--namespace"; lit "ns1"]
              [lit "helm"; lit "template"; lit "r1"; lit "c1";
               lit "--namespace"; lit "ns1"] 3%Z)
    as (_ & w' & Hrun & Hout & _); try reflexivity.
  exists w'. repeat split; trivial.
  assert (E : w' = snd (run template_bad_credential empty_world))
    by now rewrite Hrun.
  rewrite E. reflexivity.
Defined.

(** X15.  In mode [template] the script makes no use of the credential
    variable; it only hands it on to helm with the rest of its
    environment.  So on a host whose children do not look at
    [KUBECFGB64], setting the variable to anything else, or taking it
    away, changes nothing about the run. *)
Theorem template_needs_no_credential (os : Host) (cred : option str)
    (w : World) :
  mode (load_inputs os) = Some (lit "template") ->
  child_ignores os (lit "KUBECFGB64") ->
  run (with_credential os cred) w = run os w.
Proof.
  intros Hmode Hchild.
  assert (Hinputs : load_inputs (with_credential os cred) = load_inputs os)
    by reflexivity.
  rewrite (dispatch os Template Hmode).
  rewrite (dispatch (with_credential os cred) Template)
    by (rewrite Hinputs; exact Hmode).
  rewrite Hinputs.
  now apply (@helm_template_with_variable os (lit "KUBECFGB64") cred).
Qed.

Lemma template_needs_no_credential_witness :
  run (with_credential template_bad_credential None) empty_world =
  run template_bad_credential empty_world.
Proof.
  apply (@template_needs_no_credential template_bad_credential None
           empty_world).
  - reflexivity.
  - intros argv env1 env2 Henv. reflexivity.
Defined.

(** The condition on the children is needed: helm is started in the whole
    environment of the script, and a child that looks at [KUBECFGB64]
    there returns another code once the variable is gone. *)
Lemma template_hands_credential_to_child :
  fst (run template_child_reads_credential empty_world) = SysExit 0%Z /\
  fst (run (with_credential template_child_reads_credential None)
         empty_world) = SysExit 4%Z.
Proof. split; vm_compute; reflexivity. Qed.

(** *** What is printed *)

Lemma prints_only_silent (A : Type) (d : str) (m : M A) :
  (forall w, stdout (snd (m w)) = stdout w) -> prints_only d m.
Proof. intros H w. left. apply H. Qed.

Lemma prints_only_bind (A B : Type) (d : str) (m : M A) (k : A -> M B) :
  prints_only d m -> (forall a, prints_only d (k a)) ->
  prints_only d (bind m k).
Proof.
  intros Hm Hk w. specialize (Hm w). unfold bind.
  destruct (m w) as [[a|code|e] w1]; cbn [fst snd] in *.
  - destruct Hm as [Hm|[Hm _]]; [| discriminate].
    rewrite <- Hm. apply Hk.
  - destruct Hm as [Hm|[Hcode Hm]]; [now left | right].
    injection Hcode as ->. now split.
  - destruct Hm as [Hm|[Hm _]]; [now left | discriminate].
Qed.

Lemma prints_only_run_helm (os : Host) d cmd params env :
  prints_only d (run_helm os cmd params env).
Proof.
  apply prints_only_silent. intros w.
  now destruct (run_helm_world os cmd params env w) as (_ & H & _).
Qed.

Lemma prints_only_load_values (os : Host) d wrkdir specs :
  prints_only d (load_values os wrkdir specs).
Proof.
  apply prints_only_silent. intros w.
  now destruct (load_values_world os wrkdir specs w) as (H & _).
Qed.

Lemma prints_only_load_repo (os : Host) d inner wrkdir specs :
  (forall wrkdir specs, prints_only d (inner wrkdir specs)) ->
  prints_only d (load_repo os inner wrkdir specs).
Proof.
  intros Hinner. unfold load_repo. apply prints_only_bind; [| now intros _].
  destruct (truthy (repo specs)).
  - apply prints_only_bind; [apply prints_only_run_helm | intros _].
    apply prints_only_bind; [apply prints_only_run_helm | intros _].
    now apply prints_only_silent.
  - now apply prints_only_silent.
Qed.

Lemma prints_only_wrap_helm (os : Host) wrkdir cmd params exit :
  prints_only (lit "Bad kubeconfig") (wrap_helm os wrkdir cmd params exit).
Proof.
  unfold wrap_helm. apply prints_only_bind.
  - unfold load_kubeconfig. apply prints_only_bind.
    + intros w. unfold try_except, lift.
      destruct (b64decode _); [right | left]; split; reflexivity.
    + intros decoded.
      apply prints_only_bind; [now apply prints_only_silent | intros _].
      apply prints_only_bind; [apply prints_only_run_helm | intros r].
      apply prints_only_bind; [| intros _; now apply prints_only_silent].
      apply prints_only_silent. intros w. unfold unlink.
      now destruct (fs_exists _ _).
  - intros r. destruct exit; now apply prints_only_silent.
Qed.

Lemma prints_only_operations (os : Host) wrkdir specs :
  prints_only (lit "Bad kubeconfig") (helm_install os wrkdir specs) /\
  prints_only (lit "Bad kubeconfig") (helm_upgrade os wrkdir specs) /\
  prints_only (lit "Bad kubeconfig") (helm_uninstall os wrkdir specs) /\
  prints_only (lit "Bad kubeconfig") (helm_template os wrkdir specs).
Proof.
  repeat split.
  - apply prints_only_load_repo. intros w s.
    apply prints_only_bind; [apply prints_only_load_values | intros vt].
    apply prints_only_wrap_helm.
  - apply prints_only_load_repo. intros w s.
    apply prints_only_bind; [apply prints_only_load_values | intros vt].
    apply prints_only_wrap_helm.
  - apply prints_only_wrap_helm.
  - apply prints_only_load_repo. intros w s.
    apply prints_only_bind; [apply prints_only_load_values | intros vt].
    apply prints_only_bind; [apply prints_only_run_helm | intros r].
    now apply prints_only_silent.
Qed.

(** X16.  A run prints nothing, or it prints exactly one line and exits with
    code 1, and the line is [Bad kubeconfig] or [Unknown `mode`
    specified.]; the diagnostic for values that do not parse is never
    printed. *)
Theorem diagnostics_come_with_exit_code_1 (os : Host) (w : World) :
  stdout (snd (run os w)) = stdout w \/
  (fst (run os w) = SysExit 1%Z /\
   (stdout (snd (run os w)) = stdout w ++ [lit "Bad kubeconfig"] \/
    stdout (snd (run os w)) = stdout w ++ [lit "Unknown `mode` specified."])).
Proof.
  destruct (prints_only_operations os (mkdtemp os) (load_inputs os))
    as (Hinstall & Hupgrade & Huninstall & Htemplate).
  assert (Hknown : forall cmd : str -> Specs -> M unit,
            prints_only (lit "Bad kubeconfig")
              (cmd (mkdtemp os) (load_inputs os)) ->
            prints_only (lit "Bad kubeconfig")
              (note_tmpdir (mkdtemp os) ;;
               cmd (mkdtemp os) (load_inputs os))).
  { intros cmd Hcmd. apply prints_only_bind; [| now intros _].
    now apply prints_only_silent. }
  unfold run. cbn [dict_get].
  destruct (eq_str _ (lit "install"));
    [destruct (Hknown _ Hinstall w) as [H|[H1 H2]]; tauto |].
  destruct (eq_str _ (lit "upgrade"));
    [destruct (Hknown _ Hupgrade w) as [H|[H1 H2]]; tauto |].
  destruct (eq_str _ (lit "uninstall"));
    [destruct (Hknown _ Huninstall w) as [H|[H1 H2]]; tauto |].
  destruct (eq_str _ (lit "template"));
    [destruct (Hknown _ Htemplate w) as [H|[H1 H2]]; tauto |].
  right. split; [reflexivity |]. now right.
Qed.

End Rendering.

(* ================================================================== *)
(** ** Runs with a repository *)

Module RepositoryRuns.
Import Py Eff Action Args Samples Vocabulary PyFacts Files Lifecycle
  InlineValues InlineValuesFile CommandLine Repository Runs ArgumentLists.
Local Open Scope eff_scope.



(** X18.  The repository is registered before the credential is looked at: with
    a repository, inline values the encoding of text files can take (or
    none) and a credential that does not decode, install and upgrade
    still run [helm repo add] and [helm repo update], then print
    [Bad kubeconfig] and exit with code 1 without calling the operation. *)
Theorem registration_precedes_credential (os : Host) (w : World)
    (op : Operation) (url : str) (argv_add argv_update : list str)
    (code_add code_update : Z) (e : Exn) :
  op = Install \/ op = Upgrade ->
  mode (load_inputs os) = Some (op_name op) ->
  repo (load_inputs os) = Some url ->
  truthy (repo (load_inputs os)) = true ->
  values_writable os (load_inputs os) = true ->
  let name := or_str (repo_name (load_inputs os)) (lit "charts") in
  shlex_split os
    (join_strs (lit " ")
       [lit "helm"; lit "repo add --force-update"; name; url])
    = Some argv_add ->
  child os argv_add (child_environ os []) = Some code_add ->
  shlex_split os (lit "helm repo update") = Some argv_update ->
  child os argv_update (child_environ os []) = Some code_update ->
  b64decode (credential os) = inl e ->
  exists w',
    run os w = (SysExit 1%Z, w') /\
    stdout w' = stdout w ++ [lit "Bad kubeconfig"] /\
    helm_calls w' =
      helm_calls w
        ++ [(lit "repo add --force-update", [Some name; Some url]);
            (lit "repo update", [])] /\
    spawned w' = spawned w ++ [argv_add; argv_update].
Proof.
  intros Hop Hmode Hurl Hrepo Hwritable name Hsplit1 Hchild1 Hsplit2 Hchild2
    Hdec.
  rewrite (dispatch _ _ Hmode).
  set (specs := load_inputs os) in *. set (wrkdir := mkdtemp os) in *.
  destruct Hop as [-> | ->].
  - unfold helm_install.
    rewrite (load_repo_steps os _ wrkdir specs _ Hurl Hrepo
               Hsplit1 Hchild1 Hsplit2 Hchild2).
    rewrite (@refused_step os wrkdir specs (lit "install")
               (fun vt => Some (helm_install_params specs (load_chart specs)
                                  vt (load_values_files specs))) _ e
               Hwritable Hdec).
    eexists. split; [reflexivity |].
    match goal with
    | |- context [load_values os wrkdir specs ?w0] =>
        destruct (load_values_world os wrkdir specs w0)
          as (_ & _ & Hcalls & Hspawned & _)
    end.
    unfold with_stdout. cbn [stdout helm_calls spawned].
    rewrite Hcalls, Hspawned. unfold with_call.
    cbn [stdout helm_calls spawned]. now rewrite <- !app_assoc.
  - unfold helm_upgrade.
    rewrite (load_repo_steps os _ wrkdir specs _ Hurl Hrepo
               Hsplit1 Hchild1 Hsplit2 Hchild2).
    rewrite (@refused_step os wrkdir specs (lit "upgrade")
               (fun vt => Some (helm_upgrade_params specs (load_chart specs)
                                  vt (load_values_files specs))) _ e
               Hwritable Hdec).
    eexists. split; [reflexivity |].
    match goal with
    | |- context [load_values os wrkdir specs ?w0] =>
        destruct (load_values_world os wrkdir specs w0)
          as (_ & _ & Hcalls & Hspawned & _)
    end.
    unfold with_stdout. cbn [stdout helm_calls spawned].
    rewrite Hcalls, Hspawned. unfold with_call.
    cbn [stdout helm_calls spawned]. now rewrite <- !app_assoc.
Qed.

Lemma registration_precedes_credential_witness :
  exists w',
    run install_from_repo_bad_credential empty_world = (SysExit 1%Z, w') /\
    spawned w' =
      [[lit "helm"; lit "repo"; lit "add"; lit "--force-update";
        lit "charts"; lit "https://example.org/charts"];
       [lit "helm"; lit "repo"; lit "update"]].
Proof.
  destruct (@registration_precedes_credential
              install_from_repo_bad_credential empty_world Install
              (lit "https://example.org/charts")
              [lit "helm"; lit "repo"; lit "add"; lit "--force-update";
               lit "charts"; lit "https://example.org/charts"]
              [lit "helm"; lit "repo"; lit "update"] 3%Z 3%Z BinasciiError)
    as (w' & Hrun & _ & _ & Hspawned); try reflexivity.
  - now left.
  - exists w'. split; [exact Hrun | exact Hspawned].
Defined.

End RepositoryRuns.

(* ================================================================== *)
(** ** The flags of install and upgrade, and the unused input *)

Module Flags.
Import Py Eff Action Args Samples Vocabulary PyFacts ArgumentLists Runs
  Environment.
Local Open Scope eff_scope.

Lemma optional_head_is_no_flag (flag : str) (specs : Specs)
    (files : list str) (target : option str) :
  flag <> lit "-f" -> flag <> lit "--version" -> flag <> lit "--timeout" ->
  nth_error (values_files_pairs files ++ values_pair target
               ++ version_pair specs ++ timeout_pair specs) 0
    <> Some (Some flag).
Proof.
  intros H1 H2 H3. unfold values_pair, version_pair, timeout_pair.
  destruct files as [|f files]; [| simpl; congruence].
  destruct (truthy target); [simpl; congruence |].
  destruct (truthy (chart_version specs)); [simpl; congruence |].
  destruct (truthy (timeout specs)); simpl; congruence.
Qed.

(** X19.  Install passes [--atomic] exactly when [atomic] is the string [true]
    (any other value, [True] or [yes] say, counts as off), and puts it
    right behind the namespace; [--dry-run] follows in the same way for
    [dry-run].  Upgrade does the same one place further on. *)
Theorem flags_need_the_string_true (wrkdir : str) (specs : Specs) :
  (nth_error (install_args wrkdir specs) 4 = Some (Some (lit "--atomic"))
   <-> atomic specs = Some (lit "true")) /\
  (nth_error (install_args wrkdir specs)
     (4 + List.length (atomic_flag specs)) = Some (Some (lit "--dry-run"))
   <-> dry_run specs = Some (lit "true")) /\
  (nth_error (upgrade_args wrkdir specs) 5 = Some (Some (lit "--atomic"))
   <-> atomic specs = Some (lit "true")) /\
  (nth_error (upgrade_args wrkdir specs)
     (5 + List.length (atomic_flag specs)) = Some (Some (lit "--dry-run"))
   <-> dry_run specs = Some (lit "true")).
Proof.
  unfold install_args, upgrade_args.
  rewrite helm_install_params_pieces, helm_upgrade_params_pieces.
  pose proof (@optional_head_is_no_flag (lit "--atomic") specs
                (load_values_files specs) (values_target wrkdir specs))
    as Hatomic.
  pose proof (@optional_head_is_no_flag (lit "--dry-run") specs
                (load_values_files specs) (values_target wrkdir specs))
    as Hdry.
  unfold atomic_flag, dry_run_flag in *.
  rewrite <- !eq_str_true.
  destruct (eq_str (atomic specs) (lit "true")),
    (eq_str (dry_run specs) (lit "true"));
    cbn [app nth_error List.length Nat.add] in *;
    repeat split; trivial; try discriminate; intros H; exfalso;
    first [ now apply Hatomic | now apply Hdry ].
Qed.

(** X20.  The input [helm-version] is read and then never used by the
    script; its variable only reaches helm with the rest of the
    environment.  So on a host whose children do not look at
    [GHINPUT_HELM_VERSION], giving the variable any other value, or none,
    changes nothing about the run. *)
Theorem helm_version_is_ignored (os : Host) (value : option str)
    (w : World) :
  child_ignores os (lit "GHINPUT_HELM_VERSION") ->
  run (with_variable os (lit "GHINPUT_HELM_VERSION") value) w = run os w.
Proof.
  intros Hchild.
  set (os' := with_variable os (lit "GHINPUT_HELM_VERSION") value).
  assert (Hinputs :
    load_inputs os' =
    mkSpecs (atomic (load_inputs os)) (chart_version (load_inputs os))
      (chart (load_inputs os)) (dry_run (load_inputs os)) value
      (mode (load_inputs os)) (namespace (load_inputs os))
      (release (load_inputs os)) (repo_name (load_inputs os))
      (repo (load_inputs os)) (timeout (load_inputs os))
      (values_files (load_inputs os)) (values (load_inputs os)))
    by reflexivity.
  assert (Hvariable : lit "GHINPUT_HELM_VERSION" <> lit "KUBECFGB64")
    by discriminate.
  unfold run. rewrite Hinputs. cbn [mode dict_get].
  set (specs' := mkSpecs _ _ _ _ value _ _ _ _ _ _ _ _).
  destruct (eq_str _ (lit "install")).
  { apply bind_ext; [reflexivity | intros _ w1].
    destruct (@operations_with_variable os (lit "GHINPUT_HELM_VERSION") value
                (mkdtemp os) specs' w1 Hchild Hvariable) as (H & _).
    etransitivity; [exact H | reflexivity]. }
  destruct (eq_str _ (lit "upgrade")).
  { apply bind_ext; [reflexivity | intros _ w1].
    destruct (@operations_with_variable os (lit "GHINPUT_HELM_VERSION") value
                (mkdtemp os) specs' w1 Hchild Hvariable) as (_ & H & _).
    etransitivity; [exact H | reflexivity]. }
  destruct (eq_str _ (lit "uninstall")).
  { apply bind_ext; [reflexivity | intros _ w1].
    destruct (@operations_with_variable os (lit "GHINPUT_HELM_VERSION") value
                (mkdtemp os) specs' w1 Hchild Hvariable) as (_ & _ & H).
    etransitivity; [exact H | reflexivity]. }
  destruct (eq_str _ (lit "template")); [| reflexivity].
  apply bind_ext; [reflexivity | intros _ w1].
  etransitivity; [| reflexivity].
  exact (@helm_template_with_variable os (lit "GHINPUT_HELM_VERSION") value
           (mkdtemp os) specs' w1 Hchild).
Qed.

Lemma helm_version_is_ignored_witness :
  run (with_variable install_atomic (lit "GHINPUT_HELM_VERSION")
         (Some (lit "v3.9.0"))) empty_world =
  run install_atomic empty_world.
Proof.
  apply (@helm_version_is_ignored install_atomic (Some (lit "v3.9.0"))
           empty_world).
  intros argv env1 env2 Henv. reflexivity.
Defined.

End Flags.
